(** * Astrovault DeFi scanner: yield classifier, meme-market scanner, top picks

    A shallow embedding of [defi_scanner.py] (and of the few lines of
    [app.py] that feed [get_top_picks]).  Python floats are IEEE-754 binary64
    values, modelled by Rocq's primitive [float]; JSON documents are the values
    Python's [json] module produces; a Python call that can raise returns a
    [result].

    Layout: the Python runtime the scanner relies on (values, exceptions,
    [str], [float], string methods, number formatting, [sorted]); then the
    scanner itself, function by function; then the properties. *)

From Stdlib Require Import ZArith String Ascii List Bool Lia Floats.
From Stdlib Require Import Decimal DecimalString DecimalN DecimalZ.
From Stdlib Require Hexadecimal HexadecimalString HexadecimalN.
From Stdlib Require Import Permutation Sorted.
From stdpp Require Import base option gmap strings list sorting.

Set Warnings "-inexact-float,-register-all".
Local Open Scope Z_scope.
Local Open Scope string_scope.

(** ** Exceptions and fallible computations *)

Inductive exn : Set :=
  | AttributeError
  | TypeError
  | ValueError
  | OverflowError
  | KeyError
  | UnboundLocalError.

Inductive result (A : Type) : Type :=
  | Ok (a : A)
  | Raise (e : exn).
Arguments Ok {A} a.
Arguments Raise {A} e.

#[global] Instance result_ret : MRet result := fun A a => Ok a.
#[global] Instance result_bind : MBind result := fun A B f m =>
  match m with
  | Ok a => f a
  | Raise e => Raise e
  end.

(** [try: ... except Exception: return d] *)
Definition try_except {A} (m : result A) (d : A) : A :=
  match m with
  | Ok a => a
  | Raise _ => d
  end.

(** ** Python values, as [json] decoding produces them

    A decoded object keeps one binding per key; [PDict] lists the bindings in
    insertion order and [dict_get] returns the first one for a key. *)

Inductive pyval : Type :=
  | PNone
  | PBool (b : bool)
  | PInt (z : Z)
  | PFloat (f : float)
  | PStr (s : string)
  | PList (l : list pyval)
  | PDict (d : list (string * pyval)).

Definition is_dict (v : pyval) : bool :=
  match v with PDict _ => true | _ => false end.

Definition is_list (v : pyval) : bool :=
  match v with PList _ => true | _ => false end.

(** Truth value of [v], as used by [v or default]. *)
Definition truthy (v : pyval) : bool :=
  match v with
  | PNone => false
  | PBool b => b
  | PInt z => negb (z =? 0)%Z
  | PFloat f => negb (PrimFloat.eqb f 0%float)
  | PStr s => negb (String.eqb s "")
  | PList l => match l with [] => false | _ => true end
  | PDict d => match d with [] => false | _ => true end
  end.

Definition py_or (v d : pyval) : pyval := if truthy v then v else d.

Fixpoint assoc_get (d : list (string * pyval)) (k : string) : option pyval :=
  match d with
  | [] => None
  | (k', v) :: d' => if String.eqb k' k then Some v else assoc_get d' k
  end.

(** [d.get(k, default)] on a [dict] *)
Definition dict_get (d : list (string * pyval)) (k : string) (dflt : pyval) : pyval :=
  match assoc_get d k with
  | Some v => v
  | None => dflt
  end.

(** ** String methods

    Strings are sequences of ASCII characters; [lower] and [strip] act on the
    ASCII letters and the ASCII white space, and [float] reads the ASCII
    digits.  Text outside ASCII, which Python lower-cases and reads by the
    Unicode tables, is outside this model. *)

Definition is_upper (c : ascii) : bool :=
  let n := N_of_ascii c in ((65 <=? n) && (n <=? 90))%N.

Definition lower_char (c : ascii) : ascii :=
  if is_upper c then ascii_of_N (N_of_ascii c + 32) else c.

(** [s.lower()] *)
Fixpoint lower (s : string) : string :=
  match s with
  | EmptyString => EmptyString
  | String c s' => String (lower_char c) (lower s')
  end.

(** White space for [str.strip]; [float] strips the C white space only. *)
Definition is_space (c : ascii) : bool :=
  let n := N_of_ascii c in
  (((9 <=? n) && (n <=? 13)) || ((28 <=? n) && (n <=? 32)))%N.

Definition is_c_space (c : ascii) : bool :=
  let n := N_of_ascii c in
  (((9 <=? n) && (n <=? 13)) || (n =? 32))%N.

Fixpoint lstrip_by (sp : ascii -> bool) (s : string) : string :=
  match s with
  | EmptyString => EmptyString
  | String c s' => if sp c then lstrip_by sp s' else s
  end.

Fixpoint rstrip_by (sp : ascii -> bool) (s : string) : string :=
  match s with
  | EmptyString => EmptyString
  | String c s' =>
      match rstrip_by sp s' with
      | EmptyString => if sp c then EmptyString else String c EmptyString
      | r => String c r
      end
  end.

Definition strip_by (sp : ascii -> bool) (s : string) : string :=
  rstrip_by sp (lstrip_by sp s).

(** [s.strip()] *)
Definition strip (s : string) : string := strip_by is_space s.

(** [s.replace(old, new)] for a one-character [old] *)
Fixpoint replace (old : ascii) (new : string) (s : string) : string :=
  match s with
  | EmptyString => EmptyString
  | String c s' =>
      if Ascii.eqb c old then new +:+ replace old new s'
      else String c (replace old new s')
  end.

Definition is_digit (c : ascii) : bool :=
  let n := N_of_ascii c in ((48 <=? n) && (n <=? 57))%N.

(** Decimal numeral of a natural number ("0" for zero). *)
Definition N_to_string (n : N) : string :=
  NilEmpty.string_of_uint (N.to_uint n).

(** Value of a string of decimal digits (the empty string counts as 0). *)
Definition N_of_digits (s : string) : option N :=
  N.of_uint <$> NilEmpty.uint_of_string s.

(** [str(z)] for an [int] *)
Definition Z_to_string (z : Z) : string :=
  if (z <? 0)%Z then String "-" (N_to_string (Z.abs_N z)) else N_to_string (Z.abs_N z).

(** [s] split at the first character satisfying [p]: the part before it and,
    when there is one, the part after it. *)
Fixpoint split_at (p : ascii -> bool) (s : string) : string * option string :=
  match s with
  | EmptyString => (EmptyString, None)
  | String c s' =>
      if p c then (EmptyString, Some s')
      else let '(a, b) := split_at p s' in (String c a, b)
  end.

Fixpoint zeros (n : nat) : string :=
  match n with
  | O => EmptyString
  | S n' => String "0" (zeros n')
  end.

(** [s] padded on the left with zeros to [n] characters *)
Definition zero_pad (n : nat) (s : string) : string :=
  zeros (n - String.length s)%nat +:+ s.

(** ** Floats: conversions from integers and decimal numerals

    Python converts an [int] or a decimal numeral to the nearest binary64
    value, ties to even.  [SpecFloat]'s [binary_normalize] and [SFdiv] round
    that way for operands of any size. *)

Definition is_nan (f : float) : bool := negb (PrimFloat.eqb f f).

Definition is_inf_sf (x : spec_float) : bool :=
  match x with S754_infinity _ => true | _ => false end.

(** [float(z)] for an [int]: [OverflowError] beyond the binary64 range *)
Definition float_of_int (z : Z) : result float :=
  let x := binary_normalize prec emax z 0 false in
  if is_inf_sf x then Raise OverflowError else Ok (SF2Prim x).

(** Nearest binary64 value of [(-1)^neg * m * 10^e] *)
Definition float_of_decimal (neg : bool) (m : N) (e : Z) : float :=
  match m with
  | N0 => if neg then PrimFloat.neg_zero else PrimFloat.zero
  | Npos p =>
      SF2Prim
        (if (0 <=? e)%Z
         then binary_normalize prec emax (cond_Zopp neg (Zpos p * 10 ^ e)) 0 false
         else SFdiv prec emax (S754_finite neg p 0)
                (S754_finite false (Z.to_pos (10 ^ (- e))) 0))
  end.

(** *** [float(s)] for a string

    Grammar, after stripping white space: an optional sign, then [inf],
    [infinity] or [nan] in any letter case, or a decimal numeral
    [digits [. digits] [(e|E) [sign] digits]] with a digit before or after the
    point.  An underscore may stand between two digits. *)

Fixpoint underscores_ok (prev : ascii) (s : string) : bool :=
  match s with
  | EmptyString => negb (Ascii.eqb prev "_")
  | String c s' =>
      (if Ascii.eqb c "_" then is_digit prev
       else negb (Ascii.eqb prev "_") || is_digit c)
      && underscores_ok c s'
  end.

Definition split_sign (s : string) : bool * string :=
  match s with
  | String "-" r => (true, r)
  | String "+" r => (false, r)
  | _ => (false, s)
  end.

Definition is_exp_mark (c : ascii) : bool := Ascii.eqb c "e" || Ascii.eqb c "E".
Definition is_point (c : ascii) : bool := Ascii.eqb c ".".

Definition parse_exponent (es : string) : option Z :=
  let '(neg, ds) := split_sign es in
  if String.eqb ds "" then None
  else n ← N_of_digits ds; Some (cond_Zopp neg (Z.of_N n)).

(** Mantissa and decimal exponent of an unsigned decimal numeral *)
Definition parse_decimal (body : string) : option (N * Z) :=
  let '(mant, ex) := split_at is_exp_mark body in
  let '(ip, fp) := split_at is_point mant in
  let fp' := default "" fp in
  if String.eqb ip "" && String.eqb fp' "" then None
  else
    a ← N_of_digits ip;
    b ← N_of_digits fp';
    e ← match ex with None => Some 0%Z | Some es => parse_exponent es end;
    Some ((a * 10 ^ N.of_nat (String.length fp') + b)%N,
          (e - Z.of_nat (String.length fp'))%Z).

Definition float_of_string (s : string) : result float :=
  let t := strip_by is_c_space s in
  if underscores_ok "000" t then
    let '(neg, body) := split_sign (replace "_" "" t) in
    let word := lower body in
    if String.eqb word "inf" || String.eqb word "infinity"
    then Ok (if neg then PrimFloat.neg_infinity else PrimFloat.infinity)
    else if String.eqb word "nan" then Ok PrimFloat.nan
    else match parse_decimal body with
         | Some (m, e) => Ok (float_of_decimal neg m e)
         | None => Raise ValueError
         end
  else Raise ValueError.

(** [float(v)] *)
Definition py_float (v : pyval) : result float :=
  match v with
  | PFloat f => Ok f
  | PInt z => float_of_int z
  | PBool b => Ok (if b then PrimFloat.one else PrimFloat.zero)
  | PStr s => float_of_string s
  | PNone | PList _ | PDict _ => Raise TypeError
  end.

(** ** Number formatting: [f"{x:.2f}"] and [f"{x:,.0f}"] *)

(** Nearest integer to [num / den], ties to even ([den > 0]) *)
Definition round_half_even (num den : Z) : Z :=
  let q := (num / den)%Z in
  match (2 * (num mod den) ?= den)%Z with
  | Lt => q
  | Gt => (q + 1)%Z
  | Eq => if Z.even q then q else (q + 1)%Z
  end.

(** [m * 2^e * 10^p] rounded to an integer *)
Definition scaled_round (m : positive) (e : Z) (p : nat) : N :=
  Z.to_N (round_half_even (Zpos m * 10 ^ Z.of_nat p * 2 ^ Z.max e 0) (2 ^ Z.max (- e) 0)).

(** Thousands separators in a string of digits *)
Fixpoint commas (s : string) : string :=
  match s with
  | EmptyString => EmptyString
  | String c s' =>
      String c
        (if (0 <? String.length s')%nat && (String.length s' mod 3 =? 0)%nat
         then String "," (commas s') else commas s')
  end.

(** The integer [n], read as [n / 10^p], with [p] decimals *)
Definition fixed_of_N (grouping : bool) (p : nat) (n : N) : string :=
  let ip := N_to_string (n / 10 ^ N.of_nat p) in
  let fp := zero_pad p (N_to_string (n mod 10 ^ N.of_nat p)) in
  (if grouping then commas ip else ip)
  +:+ (if (p =? 0)%nat then "" else String "." fp).

Definition sign_string (s : bool) : string := if s then "-" else "".

(** [format(x, ".{p}f")], and [format(x, ",.{p}f")] when [grouping] *)
Definition format_fixed (grouping : bool) (p : nat) (x : float) : string :=
  match Prim2SF x with
  | S754_nan => "nan"
  | S754_infinity s => sign_string s +:+ "inf"
  | S754_zero s => sign_string s +:+ fixed_of_N grouping p 0
  | S754_finite s m e => sign_string s +:+ fixed_of_N grouping p (scaled_round m e p)
  end.

(** ** [repr] and [str]

    [repr] of a float is the shortest decimal numeral that reads back as the
    same value (the nearest one when several do), in positional notation when
    the decimal point falls within 16 digits and in exponent notation
    otherwise. *)

Fixpoint leading_zeros (fuel : nat) (num den : Z) : Z :=
  match fuel with
  | O => 0
  | S fuel' =>
      if (den <=? num * 10)%Z then 1
      else (1 + leading_zeros fuel' (num * 10) den)%Z
  end.

(** [k] with [10^(k-1) <= num / den < 10^k] *)
Definition decimal_point (num den : Z) : Z :=
  if (den <=? num)%Z
  then Z.of_nat (String.length (N_to_string (Z.to_N (num / den))))
  else (1 - leading_zeros 400 num den)%Z.

Definition reads_back (x : float) (d s : Z) : bool :=
  PrimFloat.eqb (float_of_decimal false (Z.to_N d) (- s)) x.

(** The [n]-digit numeral [d * 10^(-s)] for [num / den], if one reads back *)
Definition candidate (x : float) (num den k n : Z) : option (Z * Z) :=
  let s := (n - k)%Z in
  let sn := (num * 10 ^ Z.max s 0)%Z in
  let sd := (den * 10 ^ Z.max (- s) 0)%Z in
  let lo := (sn / sd)%Z in
  let hi := (lo + 1)%Z in
  match reads_back x lo s, reads_back x hi s with
  | true, true => Some (round_half_even sn sd, s)
  | true, false => Some (lo, s)
  | false, true => Some (hi, s)
  | false, false => None
  end.

Fixpoint shortest (fuel : nat) (x : float) (num den k n : Z) : Z * Z :=
  match fuel with
  | O => (0, 0)%Z
  | S fuel' =>
      match candidate x num den k n with
      | Some r => r
      | None => shortest fuel' x num den k (n + 1)
      end
  end.

Definition is_zero_char (c : ascii) : bool := Ascii.eqb c "0".

Definition repr_digits (neg : bool) (D : string) (P : Z) : string :=
  let L := Z.of_nat (String.length D) in
  sign_string neg +:+
  (if (-4 <? P)%Z && (P <=? 16)%Z then
     if (P <=? 0)%Z then "0." +:+ zeros (Z.to_nat (- P)) +:+ D
     else if (P <? L)%Z
          then substring 0 (Z.to_nat P) D +:+ "." +:+ substring (Z.to_nat P) (Z.to_nat (L - P)) D
          else D +:+ zeros (Z.to_nat (P - L)) +:+ ".0"
   else
     let e := (P - 1)%Z in
     substring 0 1 D +:+
     (if (1 <? L)%Z then "." +:+ substring 1 (Z.to_nat (L - 1)) D else "") +:+
     "e" +:+ (if (e <? 0)%Z then "-" else "+") +:+ zero_pad 2 (N_to_string (Z.abs_N e))).

(** [repr(x)] for a float *)
Definition float_repr (x : float) : string :=
  match Prim2SF x with
  | S754_nan => "nan"
  | S754_infinity s => sign_string s +:+ "inf"
  | S754_zero s => sign_string s +:+ "0.0"
  | S754_finite s m e =>
      let num := (Zpos m * 2 ^ Z.max e 0)%Z in
      let den := (2 ^ Z.max (- e) 0)%Z in
      let '(d, sc) := shortest 17 (PrimFloat.abs x) num den (decimal_point num den) 1 in
      let ds := N_to_string (Z.to_N d) in
      repr_digits s (rstrip_by is_zero_char ds) (Z.of_nat (String.length ds) - sc)
  end.

Definition squote : ascii := "'".
Definition dquote : ascii := ascii_of_N 34.
Definition backslash : ascii := ascii_of_N 92.

Fixpoint contains (c : ascii) (s : string) : bool :=
  match s with
  | EmptyString => false
  | String c' s' => Ascii.eqb c' c || contains c s'
  end.

Definition hex_digit (n : N) : ascii :=
  if (n <? 10)%N then ascii_of_N (48 + n) else ascii_of_N (87 + n).

Definition escape_char (q c : ascii) : string :=
  let n := N_of_ascii c in
  if Ascii.eqb c backslash then String backslash (String backslash "")
  else if Ascii.eqb c q then String backslash (String q "")
  else if (n =? 10)%N then String backslash "n"
  else if (n =? 13)%N then String backslash "r"
  else if (n =? 9)%N then String backslash "t"
  else if (n <? 32)%N || (n =? 127)%N
       then String backslash (String "x" (String (hex_digit (n / 16)) (String (hex_digit (n mod 16)) "")))
       else String c "".

Fixpoint escape (q : ascii) (s : string) : string :=
  match s with
  | EmptyString => EmptyString
  | String c s' => escape_char q c +:+ escape q s'
  end.

(** [repr(s)] for a string *)
Definition repr_str (s : string) : string :=
  let q := if contains squote s && negb (contains dquote s) then dquote else squote in
  String q (escape q s +:+ String q "").

Fixpoint join (sep : string) (l : list string) : string :=
  match l with
  | [] => ""
  | [s] => s
  | s :: l' => s +:+ sep +:+ join sep l'
  end.

(** [repr(v)] *)
Fixpoint py_repr (v : pyval) : string :=
  match v with
  | PNone => "None"
  | PBool b => if b then "True" else "False"
  | PInt z => Z_to_string z
  | PFloat f => float_repr f
  | PStr s => repr_str s
  | PList l => "[" +:+ join ", " (map py_repr l) +:+ "]"
  | PDict d =>
      "{" +:+ join ", " (map (fun kv => repr_str (fst kv) +:+ ": " +:+ py_repr (snd kv)) d) +:+ "}"
  end.

(** [str(v)] *)
Definition py_str (v : pyval) : string :=
  match v with
  | PStr s => s
  | _ => py_repr v
  end.

(** ** [sorted(l, key=..., reverse=True)]

    [list.sort] is stable and compares keys with [<] only; with
    [reverse=True] it reverses the list, sorts it in ascending order and
    reverses it back, so that equal keys keep their original order.  The
    ascending sort is written as an insertion sort: each element goes after
    the elements that are not greater.  On keys that [<] orders totally (no
    NaN) every stable sort returns the same list, CPython's included.  With a
    NaN key the list CPython returns depends on the runs it detects, which
    this insertion sort does not follow in general; the two agree on a list
    of two elements, which both leave as it is unless the first key is
    below the second. *)

Section Sorted.
Context {A : Type} (key : A -> float).

Fixpoint insert_sorted (x : A) (l : list A) : list A :=
  match l with
  | [] => [x]
  | y :: l' =>
      if PrimFloat.ltb (key x) (key y) then x :: l
      else y :: insert_sorted x l'
  end.

Definition sort_ascending (l : list A) : list A :=
  fold_left (fun acc x => insert_sorted x acc) l [].

Definition sorted_reverse (l : list A) : list A :=
  rev (sort_ascending (rev l)).
End Sorted.

(** A [for] loop whose body may raise *)
Fixpoint foldM {A S : Type} (f : S -> A -> result S) (l : list A) (s : S) : result S :=
  match l with
  | [] => Ok s
  | x :: l' => s' ← f s x; foldM f l' s'
  end.

(** [k in v] for a string [k] *)
Fixpoint is_substring (k s : string) : bool :=
  String.prefix k s
  || match s with
     | EmptyString => false
     | String _ s' => is_substring k s'
     end.

Definition is_str (k : string) (v : pyval) : bool :=
  match v with PStr s => String.eqb s k | _ => false end.

Definition py_in (k : string) (v : pyval) : result bool :=
  match v with
  | PDict d => Ok (bool_decide (is_Some (assoc_get d k)))
  | PList l => Ok (existsb (is_str k) l)
  | PStr s => Ok (is_substring k s)
  | PNone | PBool _ | PInt _ | PFloat _ => Raise TypeError
  end.

(** [v.get(k, dflt)]: only a [dict] has the method *)
Definition py_get (v : pyval) (k : string) (dflt : pyval) : result pyval :=
  match v with
  | PDict d => Ok (dict_get d k dflt)
  | _ => Raise AttributeError
  end.

(** [v[k]] for a string [k] *)
Definition py_getitem (v : pyval) (k : string) : result pyval :=
  match v with
  | PDict d => match assoc_get d k with Some x => Ok x | None => Raise KeyError end
  | _ => Raise TypeError
  end.

(** [isinstance(v, (int, float))]; [bool] is a subclass of [int] *)
Definition is_number (v : pyval) : bool :=
  match v with
  | PInt _ | PFloat _ | PBool _ => true
  | _ => false
  end.

(** * The scanner ([defi_scanner.py]) *)

(** ** Configuration *)

Definition SORT_MODE : string := "ror".
Definition MIN_APY : float := 5.
Definition MIN_TVL : float := 500000.
Definition MIN_LIQUIDITY : float := 100000.

Definition ALL_CHAINS : gset string :=
  {[ "solana"; "bsc"; "eth"; "sui"; "tao"; "arbitrum"; "optimism"; "base" ]}.

Definition FOCUS_PROTOCOLS : gset string :=
  {[ "beefy"; "yearn"; "radiant"; "aave"; "aave-v3"; "venus"; "morpho";
     "pancakeswap"; "raydium"; "lido"; "marinade"; "eigenlayer";
     "kamino"; "krystal"; "turbo" ]}.

Definition LAYER2_CHAINS : gset string :=
  {[ "arbitrum"; "optimism"; "zksync"; "base"; "scroll"; "linea" ]}.

Definition OPPORTUNITY_TYPE_MAP : gmap string string :=
  list_to_map
    [ ("beefy", "Vault / Auto-compounding");
      ("yearn", "Vault / Auto-compounding");
      ("lido", "Staking / Restaking");
      ("marinade", "Staking / Restaking");
      ("kamino", "Vault / Auto-compounding");
      ("krystal", "Vault / Auto-compounding");
      ("turbo", "Yield Farming");
      ("raydium", "Yield Farming");
      ("pancakeswap", "Yield Farming");
      ("aave", "Lending / Borrowing");
      ("aave-v3", "Lending / Borrowing");
      ("venus", "Lending / Borrowing");
      ("morpho", "Lending / Borrowing");
      ("radiant", "Lending / Borrowing");
      ("eigenlayer", "Staking / Restaking") ].

(** ** Data models *)

Module YieldEntry.
Record t : Type := mk {
  project : string;
  chain : string;
  apy_str : string;
  symbol : string;
  tvl_str : string;
  risk : string;
  pool_id : string;
  ror : float;
  type : string
}.

Definition apy_value (self : t) : float :=
  try_except (float_of_string (strip (replace "%" "" (apy_str self)))) 0%float.

Definition tvl_value (self : t) : float :=
  try_except
    (float_of_string (strip (replace "," "" (replace "$" "" (tvl_str self)))))
    0%float.
End YieldEntry.

Module MemeEntry.
Record t : Type := mk {
  symbol : string;
  chain : string;
  price_usd : string;
  liquidity_usd : string;
  volume_24h_usd : string;
  change_24h_pct : string;
  risk : string
}.
End MemeEntry.

(** ** Utilities *)

(** What the [try] block of [safe_request] does for one URL: [requests.get]
    raises, [raise_for_status] raises, [res.json()] raises, or the decoded
    body comes back. *)
Inductive response : Type :=
  | NetworkError (msg : string)
  | HttpError (status : Z) (msg : string)
  | MalformedBody (msg : string)
  | Body (j : pyval).

Definition is_failure (r : response) : bool :=
  match r with Body _ => false | _ => true end.

Definition safe_request (fetch : string -> response) (url : string) : pyval :=
  match fetch url with
  | Body j => j
  | NetworkError msg | HttpError _ msg | MalformedBody msg => PDict [("error", PStr msg)]
  end.

Definition risk_score (apy tvl : float) (project : string) : string :=
  let pj := lower project in
  if bool_decide (pj ∈ FOCUS_PROTOCOLS) then "Low"
  else if PrimFloat.ltb 50000000 tvl && PrimFloat.ltb apy 15 then "Low"
  else if (PrimFloat.leb 5000000 tvl && PrimFloat.leb tvl 50000000)
          && (PrimFloat.leb 15 apy && PrimFloat.leb apy 50) then "Medium"
  else if PrimFloat.ltb tvl 5000000 || PrimFloat.ltb 50 apy then "High"
  else "Medium".

Definition risk_factor : gmap string float :=
  list_to_map [("Low", 1%float); ("Medium", 0.6%float); ("High", 0.3%float)].

Definition calc_ror (apy : float) (score : string) : float :=
  PrimFloat.mul apy (default 0.5%float (risk_factor !! score)).

(** [mode] is the value of the global [SORT_MODE] when the key is taken. *)
Definition sort_key (mode : string) (entry : YieldEntry.t) : float :=
  if String.eqb mode "apy" || String.eqb mode "apr" then YieldEntry.apy_value entry
  else if String.eqb mode "tvl" then YieldEntry.tvl_value entry
  else YieldEntry.ror entry.

(** ** Core scanners *)

(** The four lists the classifier fills, and the dictionary it returns (keys
    in insertion order: [long_term], [short_term], [focus], [layer2]). *)
Record buckets : Type := mk_buckets {
  long_term : list YieldEntry.t;
  short_term : list YieldEntry.t;
  focus : list YieldEntry.t;
  layer2 : list YieldEntry.t
}.

Definition empty_buckets : buckets := mk_buckets [] [] [] [].

(** [str(raw.get(k, d) or d)] *)
Definition str_field (raw : list (string * pyval)) (k d : string) : string :=
  py_str (py_or (dict_get raw k (PStr d)) (PStr d)).

(** The four [if]s that append [entry] to the lists *)
Definition assign (st : buckets) (project score chain : string) (entry : YieldEntry.t)
    : buckets :=
  let in_focus := bool_decide (lower project ∈ FOCUS_PROTOCOLS) in
  let is_low := String.eqb score "Low" in
  let focus1 := if in_focus then (focus st ++ [entry])%list else focus st in
  let long1 :=
    if is_low && negb in_focus then (long_term st ++ [entry])%list else long_term st in
  let short1 :=
    if is_low && negb in_focus then short_term st
    else if negb is_low && negb in_focus then (short_term st ++ [entry])%list
    else short_term st in
  let layer1 :=
    if bool_decide (chain ∈ LAYER2_CHAINS) then (layer2 st ++ [entry])%list
    else layer2 st in
  mk_buckets long1 short1 focus1 layer1.

(** The entry built from a record that passed the thresholds *)
Definition make_entry (raw : list (string * pyval)) (apy tvl : float) : YieldEntry.t :=
  let project := str_field raw "project" "" in
  let chain := lower (str_field raw "chain" "N/A") in
  let symbol := str_field raw "symbol" "N/A" in
  let pool_id := str_field raw "pool" "" in
  let score := risk_score apy tvl project in
  let ror := calc_ror apy score in
  let type_str := default "Unknown" (OPPORTUNITY_TYPE_MAP !! lower project) in
  YieldEntry.mk project chain (format_fixed false 2 apy +:+ "%") symbol
    ("$" +:+ format_fixed true 0 tvl) score pool_id ror type_str.

(** One iteration of [for raw in pools] *)
Definition process_pool (st : buckets) (raw : pyval) : result buckets :=
  match raw with
  | PDict r =>
      let apy_val := dict_get r "apy" PNone in
      let tvl_val := dict_get r "tvlUsd" (PInt 0) in
      let project := str_field r "project" "" in
      let chain := lower (str_field r "chain" "N/A") in
      if negb (is_number apy_val) || negb (is_number tvl_val) then Ok st
      else
        apy ← py_float apy_val;
        tvl ← py_float tvl_val;
        if PrimFloat.ltb apy MIN_APY || PrimFloat.ltb tvl MIN_TVL then Ok st
        else
          let score := risk_score apy tvl project in
          Ok (assign st project score chain (make_entry r apy tvl))
  | _ => Ok st
  end.

Definition top10 (mode : string) (l : list YieldEntry.t) : list YieldEntry.t :=
  take 10 (sorted_reverse (sort_key mode) l).

(** [fetch] gives the outcome of the request for each URL; [mode] is the
    global [SORT_MODE].  The message printed on a feed error is not modelled,
    only the evaluation of [data['error']] it needs. *)
Definition classify_yield_opportunities
    (mode : string) (fetch : string -> response) : result buckets :=
  let data := safe_request fetch "https://yields.llama.fi/pools" in
  has_error ← py_in "error" data;
  if has_error : bool then
    _ ← py_getitem data "error";
    Ok empty_buckets
  else
    pools ← py_get data "data" (PList []);
    let pools := match pools with PList l => l | _ => [] end in
    st ← foldM process_pool pools empty_buckets;
    Ok (mk_buckets (top10 mode (long_term st)) (top10 mode (short_term st))
          (top10 mode (focus st)) (top10 mode (layer2 st))).

(** ** Meme coins *)

Definition CHAIN_ID_MAP : gmap Z string :=
  list_to_map
    [ (1, "eth"); (56, "bsc"); (101, "sol"); (1001, "sui"); (108, "tao");
      (42161, "arbitrum"); (10, "optimism"); (8453, "base") ]%Z.

Definition MEME_CHAINS : gset string :=
  {[ "sui"; "tao"; "eth"; "bsc"; "sol"; "base"; "optimism"; "arbitrum" ]}.

(** The integer a float is equal to, if any *)
Definition float_to_int (f : float) : option Z :=
  match Prim2SF f with
  | S754_zero _ => Some 0%Z
  | S754_finite s m e =>
      if (0 <=? e)%Z then Some (cond_Zopp s (Zpos m * 2 ^ e))
      else if (Zpos m mod 2 ^ (- e) =? 0)%Z then Some (cond_Zopp s (Zpos m / 2 ^ (- e)))
      else None
  | _ => None
  end.

(** The [int] key that [v] hashes and compares equal to, if any; a list or
    a dictionary is unhashable. *)
Definition int_key (v : pyval) : result (option Z) :=
  match v with
  | PInt z => Ok (Some z)
  | PBool b => Ok (Some (if b then 1 else 0)%Z)
  | PFloat f => Ok (float_to_int f)
  | PNone | PStr _ => Ok None
  | PList _ | PDict _ => Raise TypeError
  end.

(** [CHAIN_ID_MAP.get(chain_id, str(chain_id)).lower()] *)
Definition resolve_chain (chain_id : pyval) : result string :=
  k ← int_key chain_id;
  Ok (lower (default (py_str chain_id) (k ≫= (CHAIN_ID_MAP !!.)))).

(** [float(p.get(outer, {}).get(inner, 0) or 0)] *)
Definition nested_float (p : list (string * pyval)) (outer inner : string) : result float :=
  x ← py_get (dict_get p outer (PDict [])) inner (PInt 0);
  py_float (py_or x (PInt 0)).

Definition candidate_t : Type := list (string * pyval) * float * float * float.

(** State of the inner loop: the candidates so far and the local [chain]
    (unbound until the first record is looked at). *)
Definition scan_state : Type := list candidate_t * option string.

(** One iteration of [for p in pairs] *)
Definition scan_pair (st : scan_state) (p : pyval) : result scan_state :=
  match p with
  | PDict d =>
      let chain_id := dict_get d "chainId" (PInt 0) in
      chain ← resolve_chain chain_id;
      if negb (bool_decide (chain ∈ MEME_CHAINS)) then Ok (st.1, Some chain)
      else
        liq ← nested_float d "liquidity" "usd";
        vol24 ← nested_float d "volume" "h24";
        change24 ← nested_float d "priceChange" "h24";
        if PrimFloat.leb MIN_LIQUIDITY liq && PrimFloat.leb (PrimFloat.mul 0.1 liq) vol24
        then Ok ((st.1 ++ [(d, liq, vol24, change24)])%list, Some chain)
        else Ok (st.1, Some chain)
  | _ => Ok st
  end.

Definition volume_of (c : candidate_t) : float := c.1.2.

Definition meme_risk (liq change24 : float) : string :=
  if PrimFloat.ltb 0 change24 && PrimFloat.ltb 1000000 liq then "Low"
  else if PrimFloat.ltb change24 (-30) then "High"
  else "Medium".

(** The entry appended for one kept candidate; [chain] is the value the
    local variable has after the inner loop. *)
Definition meme_entry (chain : string) (c : candidate_t) : MemeEntry.t :=
  let '(obj, liq, vol24, change24) := c in
  let bt := dict_get obj "baseToken" (PDict []) in
  let base_token := match bt with PDict b => b | _ => [] end in
  let symbol := str_field base_token "symbol" "?" in
  let price_usd := str_field obj "priceUsd" "N/A" in
  MemeEntry.mk symbol chain price_usd
    ("$" +:+ format_fixed true 0 liq) ("$" +:+ format_fixed true 0 vol24)
    (format_fixed false 2 change24 +:+ "%") (meme_risk liq change24).

Definition top3 (l : list candidate_t) : list candidate_t :=
  take 3 (sorted_reverse volume_of l).

(** State of the outer loop: [results] and the local [chain]. *)
Definition meme_state : Type := list MemeEntry.t * option string.

Fixpoint append_entries (chain : option string) (cs : list candidate_t)
    (results : list MemeEntry.t) : result (list MemeEntry.t) :=
  match cs with
  | [] => Ok results
  | c :: cs' =>
      match chain with
      | Some ch => append_entries chain cs' (results ++ [meme_entry ch c])%list
      | None => Raise UnboundLocalError
      end
  end.

Definition search_url (q : string) : string :=
  "https://api.dexscreener.com/latest/dex/search?q=" +:+ q.

(** One iteration of [for q in queries] *)
Definition scan_query (fetch : string -> response) (st : meme_state) (q : string)
    : result meme_state :=
  let data := safe_request fetch (search_url q) in
  has_error ← py_in "error" data;
  if has_error : bool then
    _ ← py_getitem data "error";
    Ok st
  else
    pairs ← py_get data "pairs" (PList []);
    match pairs with
    | PList ps =>
        '(candidates, chain) ← foldM scan_pair ps ([], st.2);
        results ← append_entries chain (top3 candidates) st.1;
        Ok (results, chain)
    | _ => Ok st
    end.

Definition queries : list string := ["pepe"; "doge"; "shiba"; "floki"; "bonk"].

Definition get_meme_coins (fetch : string -> response) : result (list MemeEntry.t) :=
  st ← foldM (scan_query fetch) queries ([], None);
  Ok (take 12 st.1).

Definition get_top_picks (all_opportunities : list YieldEntry.t) : list YieldEntry.t :=
  take 5 (sorted_reverse YieldEntry.ror all_opportunities).

(** ** The caller ([main] in [app.py]) *)

(** [opportunities.values()] *)
Definition bucket_values (b : buckets) : list (list YieldEntry.t) :=
  [long_term b; short_term b; focus b; layer2 b].

(** [for category in opportunities.values(): all_opportunities.extend(category)] *)
Definition all_opportunities (b : buckets) : list YieldEntry.t :=
  fold_left (fun acc category => (acc ++ category)%list) (bucket_values b) [].

Definition top_picks (b : buckets) : list YieldEntry.t :=
  get_top_picks (all_opportunities b).

(** * Vocabulary of the properties *)

Local Open Scope list_scope.
Local Open Scope Z_scope.

(** ** Order of binary64 values

    [SFcompare] orders the values other than NaN as it orders these triples
    lexicographically: class (infinities outermost, zeros in the middle),
    then exponent, then mantissa, the last two negated for negative values. *)

Definition sf_is_nan (x : spec_float) : bool :=
  match x with S754_nan => true | _ => false end.

Definition sf_rank (x : spec_float) : Z * Z * Z :=
  match x with
  | S754_nan => (0, 0, 0)
  | S754_zero _ => (0, 0, 0)
  | S754_infinity s => (if s then -2 else 2, 0, 0)
  | S754_finite s m e => if s then (-1, - e, Zneg m) else (1, e, Zpos m)
  end.

Definition lex3 (a b : Z * Z * Z) : comparison :=
  match (a.1.1 ?= b.1.1) with
  | Eq => match (a.1.2 ?= b.1.2) with Eq => (a.2 ?= b.2) | c => c end
  | c => c
  end.

Definition lex3_le (a b : Z * Z * Z) : Prop := lex3 a b <> Gt.

Definition not_nan (x : float) : Prop := is_nan x = false.

(** ** Feeds *)

Definition YIELDS_URL : string := "https://yields.llama.fi/pools".

(** A feed that answers every request with the body [{"data": pools}] *)
Definition feed_of (pools : list pyval) : string -> response :=
  fun _ => Body (PDict [("data", PList pools)]).

(** The pool [{apy: 20, tvlUsd: 60000000, project: "beefy", chain: "eth",
    symbol: "X", pool: "p1"}] *)
Definition beefy_pool : pyval :=
  PDict [ ("apy", PInt 20); ("tvlUsd", PInt 60000000); ("project", PStr "beefy");
          ("chain", PStr "eth"); ("symbol", PStr "X"); ("pool", PStr "p1") ].

(** The records of the yield feed: the list under ["data"] of the body *)
Definition pools_of (fetch : string -> response) : list pyval :=
  match safe_request fetch YIELDS_URL with
  | PDict d => match dict_get d "data" (PList []) with PList l => l | _ => [] end
  | _ => []
  end.

(** The record [r] passes the filters of the classifier with the numbers
    [apy] and [tvl]. *)
Definition retained (r : list (string * pyval)) (apy tvl : float) : Prop :=
  is_number (dict_get r "apy" PNone) = true /\
  is_number (dict_get r "tvlUsd" (PInt 0)) = true /\
  py_float (dict_get r "apy" PNone) = Ok apy /\
  py_float (dict_get r "tvlUsd" (PInt 0)) = Ok tvl /\
  PrimFloat.ltb apy MIN_APY = false /\
  PrimFloat.ltb tvl MIN_TVL = false.

(** [e] is the entry of a retained record of [pools]. *)
Definition entry_from (pools : list pyval) (e : YieldEntry.t) : Prop :=
  exists r apy tvl, PDict r ∈ pools /\ retained r apy tvl /\ e = make_entry r apy tvl.

Definition in_some_bucket (b : buckets) (e : YieldEntry.t) : Prop :=
  e ∈ long_term b \/ e ∈ short_term b \/ e ∈ focus b \/ e ∈ layer2 b.

(** A pool whose apy is an integer beyond the binary64 range *)
Definition huge_apy_pool : pyval :=
  PDict [ ("apy", PInt (10 ^ 400)); ("tvlUsd", PInt 1000000); ("project", PStr "foo") ].

(** An [int] that [float] converts *)
Definition fits (v : pyval) : bool :=
  match v with
  | PInt z => negb (is_inf_sf (binary_normalize prec emax z 0 false))
  | _ => true
  end.

Definition numbers_fit (raw : pyval) : bool :=
  match raw with
  | PDict r => fits (dict_get r "apy" PNone) && fits (dict_get r "tvlUsd" (PInt 0))
  | _ => true
  end.

(** The entry built from [beefy_pool] *)
Definition beefy_entry : YieldEntry.t :=
  YieldEntry.mk "beefy" "eth" "20.00%" "X" "$60,000,000" "Low" "p1" 20
    "Vault / Auto-compounding".

(** The stored score of [e] is [apy] weighted by the tier of [e]. *)
Definition weighted_by_tier (apy : float) (e : YieldEntry.t) : Prop :=
  YieldEntry.risk e = "Low" /\ YieldEntry.ror e = PrimFloat.mul apy 1 \/
  YieldEntry.risk e = "Medium" /\ YieldEntry.ror e = PrimFloat.mul apy 0.6 \/
  YieldEntry.risk e = "High" /\ YieldEntry.ror e = PrimFloat.mul apy 0.3.

(** What one iteration on a retained record does to the four lists: [e]
    goes to [focus] alone, or to [long_term] alone, or to [short_term] alone,
    and besides to [layer2] when its chain is a layer-2 chain. *)
Definition appended_once (st st' : buckets) (e : YieldEntry.t) : Prop :=
  ((lower (YieldEntry.project e) ∈ FOCUS_PROTOCOLS) /\
   focus st' = focus st ++ [e] /\
   long_term st' = long_term st /\ short_term st' = short_term st
   \/
   (lower (YieldEntry.project e) ∉ FOCUS_PROTOCOLS) /\ YieldEntry.risk e = "Low" /\
   long_term st' = long_term st ++ [e] /\
   short_term st' = short_term st /\ focus st' = focus st
   \/
   (lower (YieldEntry.project e) ∉ FOCUS_PROTOCOLS) /\ YieldEntry.risk e <> "Low" /\
   short_term st' = short_term st ++ [e] /\
   long_term st' = long_term st /\ focus st' = focus st)
  /\
  layer2 st' =
    if bool_decide (YieldEntry.chain e ∈ LAYER2_CHAINS) then layer2 st ++ [e]
    else layer2 st.

(** ** Sorted lists *)

Definition ascending {A : Type} (key : A -> float) (l : list A) : Prop :=
  StronglySorted (fun a b => PrimFloat.leb (key a) (key b) = true) l.

Definition descending {A : Type} (key : A -> float) (l : list A) : Prop :=
  StronglySorted (fun a b => PrimFloat.leb (key b) (key a) = true) l.

(** The elements of [l] whose key is equal to [k], in the order of [l] *)
Definition with_key {A : Type} (key : A -> float) (k : float) (l : list A) : list A :=
  List.filter (fun x => PrimFloat.eqb (key x) k) l.

(** [s] is [l] sorted in descending order of [key], elements of equal key
    keeping the order they have in [l]. *)
Definition stable_descending {A : Type} (key : A -> float) (l s : list A) : Prop :=
  s ≡ₚ l /\ descending key s /\ forall k, with_key key k s = with_key key k l.

(** No key of [l] is NaN. *)
Definition keys_ok {A : Type} (key : A -> float) (l : list A) : Prop :=
  Forall (fun x => not_nan (key x)) l.

(** ** Meme scanner *)

(** The market pair [d] passes the filters on the chain [chain], as the
    candidate [c]. *)
Definition passes (d : list (string * pyval)) (chain : string) (c : candidate_t) : Prop :=
  exists liq vol24 change24,
    resolve_chain (dict_get d "chainId" (PInt 0)) = Ok chain /\
    chain ∈ MEME_CHAINS /\
    nested_float d "liquidity" "usd" = Ok liq /\
    nested_float d "volume" "h24" = Ok vol24 /\
    nested_float d "priceChange" "h24" = Ok change24 /\
    PrimFloat.leb MIN_LIQUIDITY liq = true /\
    PrimFloat.leb (PrimFloat.mul 0.1 liq) vol24 = true /\
    c = (d, liq, vol24, change24).

(** The pair records the scanner goes through for the search term [q]: none
    when the term is skipped. *)
Definition pairs_of (fetch : string -> response) (q : string) : list pyval :=
  match safe_request fetch (search_url q) with
  | PDict d =>
      if bool_decide (is_Some (assoc_get d "error")) then []
      else match dict_get d "pairs" (PList []) with PList ps => ps | _ => [] end
  | _ => []
  end.

(** [cands] are the surviving candidates of the term [q]. *)
Definition survivors (fetch : string -> response) (q : string)
    (cands : list candidate_t) : Prop :=
  exists ch0 ch1, foldM scan_pair (pairs_of fetch q) ([], ch0) = Ok (cands, ch1).

(** [c] is what the term [q] contributes: its surviving candidates sorted in
    descending order of 24h volume, the first three of them, as entries. *)
Definition contribution (fetch : string -> response) (q : string)
    (c : list MemeEntry.t) : Prop :=
  exists cands s ch,
    survivors fetch q cands /\
    stable_descending volume_of cands s /\
    c = map (meme_entry ch) (take 3 s).

(** A market pair record on the chain [chain_id] *)
Definition pair_fields (chain_id : pyval) (sym : string) (liq vol : Z)
    : list (string * pyval) :=
  [ ("chainId", chain_id);
    ("baseToken", PDict [("symbol", PStr sym)]);
    ("priceUsd", PStr "0.01");
    ("liquidity", PDict [("usd", PInt liq)]);
    ("volume", PDict [("h24", PInt vol)]);
    ("priceChange", PDict [("h24", PFloat 1.5)]) ].

Definition pair_record (chain_id : pyval) (sym : string) (liq vol : Z) : pyval :=
  PDict (pair_fields chain_id sym liq vol).

(** A feed with two pairs for the first term, one pair of larger volume for
    the second term, and an error for the other terms *)
Definition two_term_feed : string -> response :=
  fun url =>
    if String.eqb url (search_url "pepe")
    then Body (PDict [("pairs", PList [ pair_record (PInt 1) "PEPE" 400000 50000;
                                        pair_record (PInt 1) "PEPE2" 400000 70000 ])])
    else if String.eqb url (search_url "doge")
    then Body (PDict [("pairs", PList [ pair_record (PInt 56) "DOGE" 5000000 900000 ])])
    else NetworkError "timeout".

Definition two_term_result : list MemeEntry.t :=
  [ MemeEntry.mk "PEPE2" "eth" "0.01" "$400,000" "$70,000" "1.50%" "Medium";
    MemeEntry.mk "PEPE" "eth" "0.01" "$400,000" "$50,000" "1.50%" "Medium";
    MemeEntry.mk "DOGE" "bsc" "0.01" "$5,000,000" "$900,000" "1.50%" "Low" ].

(** ** Display strings *)

(** Every character of [s] satisfies [P]. *)
Fixpoint all_chars (P : ascii -> bool) (s : string) : bool :=
  match s with
  | EmptyString => true
  | String c s' => P c && all_chars P s'
  end.

(** The characters of a fixed-point numeral *)
Definition is_numeral_char (c : ascii) : bool :=
  is_digit c || is_point c || Ascii.eqb c "-".

(** [x] rounded to [p] decimals, ties to even on its exact value, then to the
    nearest binary64 value; zeros, infinities and NaN are left as they are. *)
Definition round_to_decimals (p : nat) (x : float) : float :=
  match Prim2SF x with
  | S754_finite s m e => float_of_decimal s (scaled_round m e p) (- Z.of_nat p)
  | _ => x
  end.

(** Three entries, the first and the last of equal score *)
Definition pick_a : YieldEntry.t :=
  YieldEntry.mk "foo" "eth" "10.00%" "A" "$60,000,000" "Low" "a" 10 "Unknown".
Definition pick_b : YieldEntry.t :=
  YieldEntry.mk "bar" "eth" "20.00%" "B" "$60,000,000" "Low" "b" 20 "Unknown".
Definition pick_c : YieldEntry.t :=
  YieldEntry.mk "baz" "eth" "10.00%" "C" "$60,000,000" "Low" "c" 10 "Unknown".

(** ** Rules of the buckets *)

(** What holds of the entries of each bucket *)
Definition bucket_rules (b : buckets) : Prop :=
  Forall (fun e => lower (YieldEntry.project e) ∈ FOCUS_PROTOCOLS /\
                   YieldEntry.risk e = "Low") (focus b) /\
  Forall (fun e => (lower (YieldEntry.project e) ∉ FOCUS_PROTOCOLS) /\
                   YieldEntry.risk e = "Low") (long_term b) /\
  Forall (fun e => (lower (YieldEntry.project e) ∉ FOCUS_PROTOCOLS) /\
                   (YieldEntry.risk e = "Medium" \/ YieldEntry.risk e = "High"))
    (short_term b) /\
  Forall (fun e => YieldEntry.chain e ∈ LAYER2_CHAINS) (layer2 b).

(** Every bucket is in descending order of the sort key. *)
Definition sorted_buckets (mode : string) (b : buckets) : Prop :=
  descending (sort_key mode) (long_term b) /\
  descending (sort_key mode) (short_term b) /\
  descending (sort_key mode) (focus b) /\
  descending (sort_key mode) (layer2 b).

(** ** Feeds of the meme scanner *)

(** [fetch] with every failed request answered by an empty list of pairs *)
Definition failures_as_empty (fetch : string -> response) : string -> response :=
  fun url =>
    if is_failure (fetch url) then Body (PDict [("pairs", PList [])]) else fetch url.

(** A feed whose first term has a retained pair on Base followed by a pair
    on an unknown chain *)
Definition stale_chain_feed : string -> response :=
  fun url =>
    if String.eqb url (search_url "pepe")
    then Body (PDict [("pairs", PList [ pair_record (PInt 8453) "PEPE" 400000 50000;
                                        pair_record (PInt 999999) "OTHER" 1 1 ])])
    else NetworkError "timeout".


(** * The wallet simulation ([wallet_utils.py])

    The session state holds the four wallets and the list of positions.  A
    wallet object is named by the key it is stored under; the random draws and
    the clock readings of a call are arguments of the call. *)

Module Position.
Record t : Type := mk {
  id : string;
  opportunity_name : string;
  chain : string;
  amount_invested : float;
  current_value : float;
  apy : float;
  entry_date : Z;
  status : string;
  wallet_type : string
}.

(** [pos.status = "closed"] *)
Definition close (pos : t) : t :=
  mk (id pos) (opportunity_name pos) (chain pos) (amount_invested pos)
    (current_value pos) (apy pos) (entry_date pos) "closed" (wallet_type pos).
End Position.

(** Lower-case hexadecimal numeral of [n] *)
Definition hex_string (n : N) : string :=
  HexadecimalString.NilEmpty.string_of_uint (N.to_hex_uint n).

(** What [connect] draws: the integer of [random.randint], the value of
    [random.uniform] and the 44 characters of [random.choice] *)
Record connect_draws : Type := mk_connect_draws {
  drawn_int : N;
  drawn_uniform : float;
  drawn_chars : string
}.

Module MockWallet.
Record t : Type := mk {
  wallet_type : string;
  connected : bool;
  address : string;
  balance : float;
  chain_id : option Z;
  network_name : string
}.

(** [MockWallet(wallet_type)] *)
Definition new (wallet_type : string) : t :=
  mk wallet_type false "" 0 None "".

(** [round(x, p)] is [round_to_decimals p x]. *)
Definition connect (self : t) (d : connect_draws) : t :=
  let ty := wallet_type self in
  if String.eqb ty "MetaMask" then
    mk ty true ("0x" +:+ zero_pad 40 (hex_string (drawn_int d)))
      (round_to_decimals 4 (drawn_uniform d)) (Some 1%Z) "Ethereum Mainnet"
  else if String.eqb ty "Phantom" then
    mk ty true (drawn_chars d)
      (round_to_decimals 2 (drawn_uniform d)) (Some 101%Z) "Solana Mainnet"
  else if String.eqb ty "SUI" then
    mk ty true ("0x" +:+ zero_pad 40 (hex_string (drawn_int d)))
      (round_to_decimals 2 (drawn_uniform d)) (Some 1001%Z) "SUI Network"
  else if String.eqb ty "TAO" then
    mk ty true ("5" +:+ zero_pad 40 (hex_string (drawn_int d)))
      (round_to_decimals 4 (drawn_uniform d)) (Some 108%Z) "Bittensor Network"
  else
    mk ty true (address self) (balance self) (chain_id self) (network_name self).

Definition get_balance_symbol (self : t) : string :=
  let ty := wallet_type self in
  if String.eqb ty "MetaMask" then "ETH"
  else if String.eqb ty "Phantom" then "SOL"
  else if String.eqb ty "SUI" then "SUI"
  else if String.eqb ty "TAO" then "TAO"
  else "TOKEN".

Definition disconnect (self : t) : t :=
  mk (wallet_type self) false "" 0 None "".

(** [wallet.balance = b] *)
Definition set_balance (self : t) (b : float) : t :=
  mk (wallet_type self) (connected self) (address self) b (chain_id self)
    (network_name self).
End MockWallet.

(** The keys of the wallets in the session state *)
Inductive wallet_key : Set :=
  | metamask_wallet
  | phantom_wallet
  | sui_wallet
  | tao_wallet.

Record session : Type := mk_session {
  wallets : wallet_key -> MockWallet.t;
  positions : list Position.t
}.

(** The session state that [init_wallets] sets up *)
Definition init_wallets : session :=
  mk_session
    (fun k =>
       match k with
       | metamask_wallet => MockWallet.new "MetaMask"
       | phantom_wallet => MockWallet.new "Phantom"
       | sui_wallet => MockWallet.new "SUI"
       | tao_wallet => MockWallet.new "TAO"
       end)
    [].

Definition wallet_key_eqb (a b : wallet_key) : bool :=
  match a, b with
  | metamask_wallet, metamask_wallet | phantom_wallet, phantom_wallet
  | sui_wallet, sui_wallet | tao_wallet, tao_wallet => true
  | _, _ => false
  end.

(** The session with the wallet [k] replaced by [w] *)
Definition set_wallet (s : session) (k : wallet_key) (w : MockWallet.t) : session :=
  mk_session (fun k' => if wallet_key_eqb k' k then w else wallets s k') (positions s).

Definition get_all_wallets : list wallet_key :=
  [metamask_wallet; phantom_wallet; sui_wallet; tao_wallet].

(** The first connected wallet *)
Definition get_connected_wallet (s : session) : option wallet_key :=
  List.find (fun k => MockWallet.connected (wallets s k)) get_all_wallets.

(** The result dictionaries of the two transactions *)
Inductive tx_result : Type :=
  | Failure (error : string)
  | Entered (tx_hash position_id : string)
  | Returned (tx_hash : string) (amount_returned : float).

(** [f"0x{n:064x}"] *)
Definition tx_hash_of (n : N) : string := "0x" +:+ zero_pad 64 (hex_string n).

(** What [simulate_transaction] reads from the outside: the two random
    integers, [int(time.time())] and [datetime.now()] *)
Record tx_draws : Type := mk_tx_draws {
  drawn_hash : N;
  drawn_suffix : Z;
  time_seconds : Z;
  now : Z
}.

(** [f"pos_{int(time.time())}_{random.randint(1000, 9999)}"] *)
Definition position_id_of (d : tx_draws) : string :=
  "pos_" +:+ Z_to_string (time_seconds d) +:+ "_" +:+ Z_to_string (drawn_suffix d).

Definition simulate_transaction (s : session) (d : tx_draws) (amount : float)
    (opportunity_name : string) (wallet : wallet_key) (chain : string) (apy : float)
    : tx_result * session :=
  let w := wallets s wallet in
  if negb (MockWallet.connected w) then (Failure "Wallet not connected", s)
  else if PrimFloat.ltb (MockWallet.balance w) amount
  then (Failure "Insufficient balance", s)
  else
    let tx_hash := tx_hash_of (drawn_hash d) in
    let position_id := position_id_of d in
    let position :=
      Position.mk position_id opportunity_name chain amount amount apy (now d)
        "active" (MockWallet.wallet_type w) in
    let s1 := mk_session (wallets s) (positions s ++ [position])%list in
    let s2 :=
      set_wallet s1 wallet
        (MockWallet.set_balance w (PrimFloat.sub (MockWallet.balance w) amount)) in
    (Entered tx_hash position_id, s2).

(** The loop of [close_position] over the positions: each position of the
    given id is marked closed, up to and including the first one whose wallet
    type is that of the connected wallet [w], at which the loop returns. *)
Fixpoint close_loop (ps : list Position.t) (position_id : string)
    (w : option MockWallet.t) : list Position.t * option Position.t :=
  match ps with
  | [] => ([], None)
  | pos :: ps' =>
      if String.eqb (Position.id pos) position_id then
        let pos' := Position.close pos in
        match w with
        | Some wl =>
            if String.eqb (MockWallet.wallet_type wl) (Position.wallet_type pos')
            then (pos' :: ps', Some pos')
            else let '(ps'', r) := close_loop ps' position_id w in (pos' :: ps'', r)
        | None => let '(ps'', r) := close_loop ps' position_id w in (pos' :: ps'', r)
        end
      else let '(ps'', r) := close_loop ps' position_id w in (pos :: ps'', r)
  end.

Definition close_position (s : session) (drawn : N) (position_id : string)
    : tx_result * session :=
  let k := get_connected_wallet s in
  let '(ps, r) := close_loop (positions s) position_id (wallets s <$> k) in
  let s1 := mk_session (wallets s) ps in
  match r, k with
  | Some pos, Some k =>
      let w := wallets s k in
      (Returned (tx_hash_of drawn) (Position.current_value pos),
       set_wallet s1 k
         (MockWallet.set_balance w
            (PrimFloat.add (MockWallet.balance w) (Position.current_value pos))))
  | _, _ => (Failure "Position not found or wallet mismatch", s1)
  end.

(** [[pos for pos in positions if pos.status == "active"]] of
    [display_positions_tab] *)
Definition active_positions (s : session) : list Position.t :=
  List.filter (fun pos => String.eqb (Position.status pos) "active") (positions s).

(** ** Vocabulary of the wallet properties *)

(** No position of the list has the id. *)
Definition absent (position_id : string) (ps : list Position.t) : Prop :=
  Forall (fun pos => Position.id pos <> position_id) ps.

(** Every position of the id marked closed, the others as they are *)
Definition close_all (position_id : string) (ps : list Position.t) : list Position.t :=
  map (fun pos =>
         if String.eqb (Position.id pos) position_id then Position.close pos else pos)
      ps.

(** The position is as it was, or it has the id and is now marked closed. *)
Definition same_or_closed (position_id : string) (pos pos' : Position.t) : Prop :=
  pos' = pos \/ (Position.id pos = position_id /\ pos' = Position.close pos).

(** A session in which only the Phantom wallet is connected, and the draws of
    one transaction *)
Definition phantom_draws : connect_draws :=
  mk_connect_draws (10 ^ 39) 1234.567 "7xKXtg2CW87d97TXJSDpbD5jBkheTqA83TZRuJosgAsU".

Definition phantom_session : session :=
  set_wallet init_wallets phantom_wallet
    (MockWallet.connect (wallets init_wallets phantom_wallet) phantom_draws).

Definition first_draws : tx_draws := mk_tx_draws (10 ^ 63) 4242 1700000000 1700000000.

Definition second_draws : tx_draws := mk_tx_draws (10 ^ 63 + 1) 1000 1700000100 1700000100.

(** A position entered from the MetaMask wallet, in a session where only the
    Phantom wallet is connected *)
Definition foreign_position : Position.t :=
  Position.mk "pos_1700000000_1234" "aave-v3" "ethereum" 1.5 1.5 7.25 1700000000
    "active" "MetaMask".

Definition foreign_session : session :=
  mk_session (wallets phantom_session) [foreign_position].

(** The Phantom session after one position of 100 was entered *)
Definition entered_position : Position.t :=
  Position.mk (position_id_of first_draws) "raydium" "solana" 100 100 12.5
    (now first_draws) "active" "Phantom".

Definition entered_session : session :=
  (simulate_transaction phantom_session first_draws 100 "raydium" phantom_wallet
     "solana" 12.5).2.

(** ** Retention of a market pair, as the specification words it *)





(** ** A feed with a NaN apy *)

(** The pool [{apy: NaN, tvlUsd: 1000000, project: "foo", chain: "eth",
    symbol: "N", pool: "p0"}]; Python's JSON reader accepts the literal
    [NaN]. *)
Definition nan_pool : pyval :=
  PDict [ ("apy", PFloat PrimFloat.nan); ("tvlUsd", PInt 1000000);
          ("project", PStr "foo"); ("chain", PStr "eth"); ("symbol", PStr "N");
          ("pool", PStr "p0") ].

Definition nan_entry : YieldEntry.t :=
  YieldEntry.mk "foo" "eth" "nan%" "N" "$1,000,000" "High" "p0" PrimFloat.nan "Unknown".

(** ** A feed with three pools of the same bucket, not in order *)

Definition uniswap_pool : pyval :=
  PDict [ ("apy", PInt 8); ("tvlUsd", PInt 60000000); ("project", PStr "uniswap");
          ("chain", PStr "Arbitrum"); ("symbol", PStr "U"); ("pool", PStr "u1") ].

Definition curve_pool : pyval :=
  PDict [ ("apy", PInt 12); ("tvlUsd", PInt 70000000); ("project", PStr "curve");
          ("chain", PStr "eth"); ("symbol", PStr "C"); ("pool", PStr "c1") ].

Definition sushi_pool : pyval :=
  PDict [ ("apy", PInt 10); ("tvlUsd", PInt 80000000); ("project", PStr "sushi");
          ("chain", PStr "Base"); ("symbol", PStr "S"); ("pool", PStr "s1") ].

Definition uniswap_entry : YieldEntry.t :=
  YieldEntry.mk "uniswap" "arbitrum" "8.00%" "U" "$60,000,000" "Low" "u1" 8 "Unknown".

Definition curve_entry : YieldEntry.t :=
  YieldEntry.mk "curve" "eth" "12.00%" "C" "$70,000,000" "Low" "c1" 12 "Unknown".

Definition sushi_entry : YieldEntry.t :=
  YieldEntry.mk "sushi" "base" "10.00%" "S" "$80,000,000" "Low" "s1" 10 "Unknown".

Definition three_pools : list pyval := [uniswap_pool; curve_pool; sushi_pool].

(** * Properties *)

(** ** Order of floats *)

Lemma SFcompare_rank x y :
  SFcompare x y =
  if sf_is_nan x || sf_is_nan y then None else Some (lex3 (sf_rank x) (sf_rank y)).
Proof.
  destruct x as [[]|[]| |[] m1 e1], y as [[]|[]| |[] m2 e2]; try reflexivity;
    unfold lex3; simpl.
  rewrite Z.compare_opp, (Z.compare_antisym e1 e2).
  destruct (e1 ?= e2); reflexivity.
Qed.

Lemma lex3_antisym a b : lex3 b a = CompOpp (lex3 a b).
Proof.
  unfold lex3. rewrite (Z.compare_antisym a.1.1), (Z.compare_antisym a.1.2), (Z.compare_antisym a.2).
  destruct (a.1.1 ?= b.1.1), (a.1.2 ?= b.1.2), (a.2 ?= b.2); reflexivity.
Qed.

Lemma lex3_le_trans a b c : lex3_le a b -> lex3_le b c -> lex3_le a c.
Proof.
  unfold lex3_le, lex3.
  destruct (Z.compare_spec a.1.1 b.1.1), (Z.compare_spec b.1.1 c.1.1), (Z.compare_spec a.1.1 c.1.1);
    try lia; try congruence;
  destruct (Z.compare_spec a.1.2 b.1.2), (Z.compare_spec b.1.2 c.1.2), (Z.compare_spec a.1.2 c.1.2);
    try lia; try congruence;
  destruct (Z.compare_spec a.2 b.2), (Z.compare_spec b.2 c.2), (Z.compare_spec a.2 c.2);
    try lia; congruence.
Qed.

Lemma is_nan_spec x : is_nan x = sf_is_nan (Prim2SF x).
Proof.
  unfold is_nan. rewrite FloatAxioms.eqb_spec. unfold SFeqb. rewrite SFcompare_rank.
  destruct (sf_is_nan (Prim2SF x)); simpl; [reflexivity|].
  assert (H : lex3 (sf_rank (Prim2SF x)) (sf_rank (Prim2SF x)) = Eq).
  { unfold lex3. rewrite !Z.compare_refl. reflexivity. }
  rewrite H. reflexivity.
Qed.

Lemma ltb_rank x y :
  PrimFloat.ltb x y =
  negb (is_nan x) && negb (is_nan y) &&
  match lex3 (sf_rank (Prim2SF x)) (sf_rank (Prim2SF y)) with Lt => true | _ => false end.
Proof.
  rewrite FloatAxioms.ltb_spec, !is_nan_spec. unfold SFltb. rewrite SFcompare_rank.
  destruct (sf_is_nan (Prim2SF x)), (sf_is_nan (Prim2SF y)); reflexivity.
Qed.

Lemma leb_rank x y :
  PrimFloat.leb x y =
  negb (is_nan x) && negb (is_nan y) &&
  match lex3 (sf_rank (Prim2SF x)) (sf_rank (Prim2SF y)) with Gt => false | _ => true end.
Proof.
  rewrite FloatAxioms.leb_spec, !is_nan_spec. unfold SFleb. rewrite SFcompare_rank.
  destruct (sf_is_nan (Prim2SF x)), (sf_is_nan (Prim2SF y)); simpl; try reflexivity.
Qed.

Lemma ltb_true_leb_false x y : PrimFloat.ltb x y = true -> PrimFloat.leb y x = false.
Proof.
  rewrite ltb_rank, leb_rank, (lex3_antisym (sf_rank (Prim2SF x))).
  destruct (is_nan x), (is_nan y), (lex3 _ _); simpl; congruence.
Qed.

Lemma leb_true_ltb_false x y : PrimFloat.leb x y = true -> PrimFloat.ltb y x = false.
Proof.
  rewrite ltb_rank, leb_rank, (lex3_antisym (sf_rank (Prim2SF x))).
  destruct (is_nan x), (is_nan y), (lex3 _ _); simpl; congruence.
Qed.

Lemma ltb_false_leb x y : not_nan x -> not_nan y -> PrimFloat.ltb x y = false -> PrimFloat.leb y x = true.
Proof.
  unfold not_nan. rewrite ltb_rank, leb_rank, (lex3_antisym (sf_rank (Prim2SF x))).
  intros -> ->. destruct (lex3 _ _); simpl; congruence.
Qed.

Lemma leb_trans x y z : PrimFloat.leb x y = true -> PrimFloat.leb y z = true -> PrimFloat.leb x z = true.
Proof.
  rewrite !leb_rank.
  destruct (is_nan x), (is_nan y), (is_nan z); simpl; try congruence.
  intros H1 H2.
  pose proof (lex3_le_trans (sf_rank (Prim2SF x)) (sf_rank (Prim2SF y)) (sf_rank (Prim2SF z))) as T.
  unfold lex3_le in T.
  destruct (lex3 (sf_rank (Prim2SF x)) (sf_rank (Prim2SF y))),
           (lex3 (sf_rank (Prim2SF y)) (sf_rank (Prim2SF z))),
           (lex3 (sf_rank (Prim2SF x)) (sf_rank (Prim2SF z))); try congruence;
  exfalso; apply T; congruence.
Qed.
(** ** [risk_score] *)

Lemma risk_score_focus apy tvl project :
  lower project ∈ FOCUS_PROTOCOLS -> risk_score apy tvl project = "Low".
Proof.
  intros H. unfold risk_score. rewrite bool_decide_eq_true_2; auto.
Qed.

Lemma risk_score_tiers apy tvl project :
  risk_score apy tvl project = "Low" \/
  risk_score apy tvl project = "Medium" \/
  risk_score apy tvl project = "High".
Proof.
  unfold risk_score.
  repeat match goal with |- context [if ?b then _ else _] => destruct b end; auto.
Qed.

(** C2 (as amended): for a project outside the focus set, a tvl between
    5,000,000 and 50,000,000 with apy > 50 is classified High, by the branch
    [tvl < 5_000_000 or apy > 50]; the final [return "Medium"] is not reached. *)
Theorem risk_score_mid_tvl_high_apy (apy tvl : float) (project : string) :
  lower project ∉ FOCUS_PROTOCOLS ->
  PrimFloat.leb 5000000 tvl = true ->
  PrimFloat.leb tvl 50000000 = true ->
  PrimFloat.ltb 50 apy = true ->
  risk_score apy tvl project = "High".
Proof.
  intros Hfocus Hlo Hhi Hapy. unfold risk_score.
  rewrite bool_decide_eq_false_2 by assumption.
  rewrite (leb_true_ltb_false _ _ Hhi). simpl.
  rewrite (ltb_true_leb_false _ _ Hapy), Hapy.
  rewrite !andb_false_r, orb_true_r. reflexivity.
Qed.

Lemma risk_score_mid_tvl_high_apy_witness : risk_score 60 10000000 "foo" = "High".
Proof.
  apply risk_score_mid_tvl_high_apy; [compute_done | reflexivity | reflexivity | reflexivity].
Defined.

(** C2 (as stated) fails: apy 60 on tvl 10,000,000 for the project "foo" is
    not Medium. *)
Lemma risk_score_mid_tvl_high_apy_not_medium :
  exists (apy tvl : float) (project : string),
    (lower project ∉ FOCUS_PROTOCOLS) /\
    PrimFloat.leb 5000000 tvl = true /\ PrimFloat.leb tvl 50000000 = true /\
    PrimFloat.ltb 50 apy = true /\
    risk_score apy tvl project <> "Medium".
Proof.
  exists 60%float, 10000000%float, "foo".
  repeat split; try reflexivity; [compute_done | vm_compute; discriminate].
Qed.

(** C6: the beefy pool of the scenario.  Membership in the focus set gives
    Low where the numeric bands alone give Medium; the score is 20.0; the
    entry is in [focus] and in neither [long_term] nor [short_term]. *)
Theorem beefy_scenario (mode : string) :
  risk_score 20 60000000 "beefy" = "Low" /\
  risk_score 20 60000000 "no-focus" = "Medium" /\
  exists e : YieldEntry.t,
    classify_yield_opportunities mode (feed_of [beefy_pool])
    = Ok (mk_buckets [] [] [e] []) /\
    YieldEntry.project e = "beefy" /\
    YieldEntry.risk e = "Low" /\
    YieldEntry.ror e = 20%float.
Proof.
  split; [reflexivity|]. split; [reflexivity|].
  eexists. split; [vm_compute; reflexivity|].
  repeat split; reflexivity.
Qed.
(** ** [sorted]: the result is a rearrangement of the input *)

Section SortedFacts.
Context {A : Type} (key : A -> float).

Lemma insert_sorted_perm x l : insert_sorted key x l ≡ₚ x :: l.
Proof.
  induction l as [|y l IH]; simpl; [reflexivity|].
  destruct (PrimFloat.ltb (key x) (key y)); [reflexivity|].
  rewrite IH. apply Permutation_swap.
Qed.

Lemma fold_insert_perm l acc :
  fold_left (fun acc x => insert_sorted key x acc) l acc ≡ₚ l ++ acc.
Proof.
  revert acc. induction l as [|x l IH]; intros acc; simpl; [reflexivity|].
  rewrite IH, insert_sorted_perm. symmetry. apply Permutation_middle.
Qed.

Lemma sort_ascending_perm l : sort_ascending key l ≡ₚ l.
Proof. unfold sort_ascending. rewrite fold_insert_perm, app_nil_r. reflexivity. Qed.

Lemma sorted_reverse_perm l : sorted_reverse key l ≡ₚ l.
Proof.
  unfold sorted_reverse.
  rewrite <- Permutation_rev, sort_ascending_perm, <- Permutation_rev. reflexivity.
Qed.

Lemma sorted_reverse_length l : length (sorted_reverse key l) = length l.
Proof. apply Permutation_length, sorted_reverse_perm. Qed.

Lemma elem_of_sorted_reverse x l : x ∈ sorted_reverse key l <-> x ∈ l.
Proof. rewrite sorted_reverse_perm. reflexivity. Qed.

Lemma elem_of_take_sorted n x l : x ∈ take n (sorted_reverse key l) -> x ∈ l.
Proof.
  intros H. apply elem_of_sorted_reverse.
  apply elem_of_take in H as (i & Hi & _). eapply list_elem_of_lookup_2; eauto.
Qed.
End SortedFacts.
(** ** The classifier *)

Lemma process_pool_spec st raw st' :
  process_pool st raw = Ok st' ->
  st' = st \/
  exists r apy tvl,
    raw = PDict r /\ retained r apy tvl /\
    st' = assign st (str_field r "project" "")
            (risk_score apy tvl (str_field r "project" ""))
            (lower (str_field r "chain" "N/A")) (make_entry r apy tvl).
Proof.
  unfold process_pool. destruct raw as [| | | | | |r]; try (intros [= <-]; auto).
  destruct (is_number (dict_get r "apy" PNone)) eqn:Ha; simpl; [|intros [= <-]; auto].
  destruct (is_number (dict_get r "tvlUsd" (PInt 0))) eqn:Ht; simpl; [|intros [= <-]; auto].
  destruct (py_float (dict_get r "apy" PNone)) as [apy|] eqn:Fa; simpl; [|discriminate].
  destruct (py_float (dict_get r "tvlUsd" (PInt 0))) as [tvl|] eqn:Ft; simpl; [|discriminate].
  destruct (PrimFloat.ltb apy MIN_APY) eqn:La; simpl; [intros [= <-]; auto|].
  destruct (PrimFloat.ltb tvl MIN_TVL) eqn:Lt; simpl; [intros [= <-]; auto|].
  intros [= <-]. right. exists r, apy, tvl. unfold retained. auto 10.
Qed.

Lemma process_pool_retained st r apy tvl :
  retained r apy tvl ->
  process_pool st (PDict r)
  = Ok (assign st (str_field r "project" "")
          (risk_score apy tvl (str_field r "project" ""))
          (lower (str_field r "chain" "N/A")) (make_entry r apy tvl)).
Proof.
  intros (Ha & Ht & Fa & Ft & La & Lt). unfold process_pool.
  rewrite Ha, Ht, Fa. simpl. rewrite Ft. simpl. rewrite La, Lt. reflexivity.
Qed.

Lemma assign_elem st project score chain entry e :
  in_some_bucket (assign st project score chain entry) e ->
  in_some_bucket st e \/ e = entry.
Proof.
  unfold in_some_bucket, assign. cbn [long_term short_term focus layer2].
  repeat match goal with |- context [if ?b then _ else _] => destruct b end;
    rewrite ?elem_of_app, ?list_elem_of_singleton; tauto.
Qed.

Lemma foldM_process_pool pools : forall st st',
  foldM process_pool pools st = Ok st' ->
  forall e, in_some_bucket st' e -> in_some_bucket st e \/ entry_from pools e.
Proof.
  induction pools as [|raw pools IH]; intros st st'; simpl.
  - intros [= <-] e He. auto.
  - destruct (process_pool st raw) as [st1|] eqn:P; simpl; [|discriminate].
    intros F e He. destruct (IH _ _ F e He) as [H1|(r & apy & tvl & Hin & Hr & ->)].
    + destruct (process_pool_spec _ _ _ P) as [->|(r & apy & tvl & -> & Hr & ->)]; [auto|].
      destruct (assign_elem _ _ _ _ _ _ H1) as [H0| ->]; [auto|].
      right. exists r, apy, tvl. split; [apply list_elem_of_here|auto].
    + right. exists r, apy, tvl. split; [apply list_elem_of_further; assumption|auto].
Qed.

Lemma classify_spec mode fetch b :
  classify_yield_opportunities mode fetch = Ok b ->
  b = empty_buckets \/
  exists st,
    foldM process_pool (pools_of fetch) empty_buckets = Ok st /\
    b = mk_buckets (top10 mode (long_term st)) (top10 mode (short_term st))
          (top10 mode (focus st)) (top10 mode (layer2 st)).
Proof.
  unfold classify_yield_opportunities, pools_of. fold YIELDS_URL.
  destruct (safe_request fetch YIELDS_URL) as [| | | |s|l|d]; simpl; try discriminate.
  - destruct (is_substring "error" s); simpl; discriminate.
  - destruct (existsb (is_str "error") l); simpl; discriminate.
  - destruct (bool_decide (is_Some (assoc_get d "error"))); simpl.
    + destruct (assoc_get d "error"); simpl; [intros [= <-]; auto|discriminate].
    + destruct (foldM process_pool _ empty_buckets) as [st|] eqn:F; simpl; [|discriminate].
      intros [= <-]. right. exists st. auto.
Qed.

Lemma classify_failure_empty mode fetch :
  is_failure (fetch YIELDS_URL) = true ->
  classify_yield_opportunities mode fetch = Ok empty_buckets.
Proof.
  unfold classify_yield_opportunities, safe_request. fold YIELDS_URL.
  destruct (fetch YIELDS_URL); simpl; try discriminate; reflexivity.
Qed.

Lemma classify_entries mode fetch b e :
  classify_yield_opportunities mode fetch = Ok b ->
  in_some_bucket b e -> entry_from (pools_of fetch) e.
Proof.
  intros C He. destruct (classify_spec _ _ _ C) as [->|(st & F & ->)].
  - destruct He as [H|[H|[H|H]]]; simpl in H; inversion H.
  - assert (Hst : in_some_bucket st e).
    { unfold in_some_bucket, top10 in *. simpl in He.
      destruct He as [H|[H|[H|H]]]; apply elem_of_take_sorted in H; auto. }
    destruct (foldM_process_pool _ _ _ F e Hst) as [H|H]; [|exact H].
    destruct H as [H|[H|[H|H]]]; simpl in H; inversion H.
Qed.

Lemma top10_length mode l : (length (top10 mode l) <= 10)%nat.
Proof. unfold top10. apply firstn_le_length. Qed.
(** ** Claims on the classifier *)

(** C1: a feed failure gives four empty buckets, but the classifier does
    raise past this boundary: [OverflowError] on a record whose apy is an
    integer beyond the binary64 range, [AttributeError] on a body that is a
    JSON array, [TypeError] on a body that is [null]. *)
Theorem classify_raises_past_boundary (mode : string) :
  classify_yield_opportunities mode (fun _ => NetworkError "timeout") = Ok empty_buckets /\
  classify_yield_opportunities mode (fun _ => HttpError 503 "unavailable") = Ok empty_buckets /\
  classify_yield_opportunities mode (fun _ => MalformedBody "no JSON") = Ok empty_buckets /\
  classify_yield_opportunities mode (feed_of [huge_apy_pool]) = Raise OverflowError /\
  classify_yield_opportunities mode (fun _ => Body (PList [])) = Raise AttributeError /\
  classify_yield_opportunities mode (fun _ => Body PNone) = Raise TypeError.
Proof. repeat split; vm_compute; reflexivity. Qed.

Lemma calc_ror_tiers apy :
  calc_ror apy "Low" = (apy * 1)%float /\
  calc_ror apy "Medium" = (apy * 0.6)%float /\
  calc_ror apy "High" = (apy * 0.3)%float.
Proof. repeat split. Qed.

Lemma calc_ror_default apy score :
  score <> "Low" -> score <> "Medium" -> score <> "High" ->
  calc_ror apy score = (apy * 0.5)%float.
Proof.
  intros H1 H2 H3. unfold calc_ror, risk_factor. simpl.
  rewrite !lookup_insert_ne by congruence. rewrite lookup_empty. reflexivity.
Qed.

Lemma make_entry_fields r apy tvl :
  YieldEntry.project (make_entry r apy tvl) = str_field r "project" "" /\
  YieldEntry.chain (make_entry r apy tvl) = lower (str_field r "chain" "N/A") /\
  YieldEntry.risk (make_entry r apy tvl) = risk_score apy tvl (str_field r "project" "") /\
  YieldEntry.ror (make_entry r apy tvl)
  = calc_ror apy (risk_score apy tvl (str_field r "project" "")).
Proof. repeat split. Qed.

Lemma make_entry_weighted r apy tvl : weighted_by_tier apy (make_entry r apy tvl).
Proof.
  destruct (make_entry_fields r apy tvl) as (_ & _ & Er & Eo).
  unfold weighted_by_tier. rewrite Er, Eo.
  destruct (calc_ror_tiers apy) as (L & M & H).
  destruct (risk_score_tiers apy tvl (str_field r "project" "")) as [E|[E|E]];
    rewrite E; auto.
Qed.

(** C5: every entry of a returned bucket was built from a retained record of
    the feed with [ror = apy * 1.0] if its tier is Low, [apy * 0.6] if Medium
    and [apy * 0.3] if High; [calc_ror] multiplies by 0.5 for any other tier
    string, and [risk_score] returns no other tier. *)
Theorem ranking_score_weighting (mode : string) (fetch : string -> response)
    (b : buckets) (e : YieldEntry.t) :
  classify_yield_opportunities mode fetch = Ok b ->
  in_some_bucket b e ->
  (exists r apy tvl,
     PDict r ∈ pools_of fetch /\ retained r apy tvl /\ e = make_entry r apy tvl /\
     weighted_by_tier apy e) /\
  (forall apy score,
     score <> "Low" -> score <> "Medium" -> score <> "High" ->
     calc_ror apy score = (apy * 0.5)%float) /\
  (forall apy tvl project, risk_score apy tvl project ∈ ["Low"; "Medium"; "High"]).
Proof.
  intros C He. split; [|split].
  - destruct (classify_entries _ _ _ _ C He) as (r & apy & tvl & Hin & Hr & ->).
    exists r, apy, tvl. auto using make_entry_weighted.
  - apply calc_ror_default.
  - intros apy tvl project.
    destruct (risk_score_tiers apy tvl project) as [E|[E|E]]; rewrite E;
      rewrite !elem_of_cons; auto.
Qed.

Lemma ranking_score_weighting_witness :
  (exists r apy tvl,
     PDict r ∈ pools_of (feed_of [beefy_pool]) /\ retained r apy tvl /\
     beefy_entry = make_entry r apy tvl /\ weighted_by_tier apy beefy_entry) /\
  (forall apy score,
     score <> "Low" -> score <> "Medium" -> score <> "High" ->
     calc_ror apy score = (apy * 0.5)%float) /\
  (forall apy tvl project, risk_score apy tvl project ∈ ["Low"; "Medium"; "High"]).
Proof.
  apply (ranking_score_weighting SORT_MODE (feed_of [beefy_pool])
           (mk_buckets [] [] [beefy_entry] []) beefy_entry).
  - vm_compute. reflexivity.
  - right. right. left. apply list_elem_of_here.
Defined.

Lemma assign_appended_once st r apy tvl :
  appended_once st
    (assign st (str_field r "project" "")
       (risk_score apy tvl (str_field r "project" ""))
       (lower (str_field r "chain" "N/A")) (make_entry r apy tvl))
    (make_entry r apy tvl).
Proof.
  destruct (make_entry_fields r apy tvl) as (Ep & Ec & Er & _).
  unfold appended_once. rewrite Ep, Ec, Er.
  generalize (make_entry r apy tvl). intros e.
  unfold assign. cbn [long_term short_term focus layer2].
  split; [|reflexivity].
  destruct (bool_decide_reflect (lower (str_field r "project" "") ∈ FOCUS_PROTOCOLS)) as [F|F].
  - left. cbn [negb]. rewrite !andb_false_r. auto.
  - right. cbn [negb]. rewrite !andb_true_r.
    destruct (String.eqb_spec (risk_score apy tvl (str_field r "project" "")) "Low") as [E|E];
      cbn [negb]; [left|right]; auto.
Qed.

(** C3: a record with numeric apy >= 5.0 and numeric tvl >= 500000 is
    appended to [focus] and to neither [long_term] nor [short_term] when its
    project is a focus protocol, and otherwise to [long_term] alone when its
    tier is Low and to [short_term] alone when it is not; independently it is
    appended to [layer2] exactly when its chain is a layer-2 chain. *)
Theorem retained_pool_bucket (st : buckets) (r : list (string * pyval)) (apy tvl : float) :
  is_number (dict_get r "apy" PNone) = true ->
  is_number (dict_get r "tvlUsd" (PInt 0)) = true ->
  py_float (dict_get r "apy" PNone) = Ok apy ->
  py_float (dict_get r "tvlUsd" (PInt 0)) = Ok tvl ->
  PrimFloat.leb MIN_APY apy = true ->
  PrimFloat.leb MIN_TVL tvl = true ->
  exists st',
    process_pool st (PDict r) = Ok st' /\
    appended_once st st' (make_entry r apy tvl).
Proof.
  intros Ha Ht Fa Ft La Lt.
  assert (R : retained r apy tvl).
  { unfold retained. repeat split; auto using leb_true_ltb_false. }
  eexists. split; [apply (process_pool_retained _ _ _ _ R)|apply assign_appended_once].
Qed.

Lemma retained_pool_bucket_witness :
  exists st',
    process_pool empty_buckets beefy_pool = Ok st' /\
    appended_once empty_buckets st'
      (make_entry [ ("apy", PInt 20); ("tvlUsd", PInt 60000000); ("project", PStr "beefy");
                    ("chain", PStr "eth"); ("symbol", PStr "X"); ("pool", PStr "p1") ]
         20 60000000).
Proof.
  apply (retained_pool_bucket empty_buckets _ 20 60000000); reflexivity.
Defined.
(** ** More on the order of floats *)

Lemma lex3_eq a b : lex3 a b = Eq -> a = b.
Proof.
  unfold lex3. destruct a as [[a1 a2] a3], b as [[b1 b2] b3]; simpl.
  destruct (Z.compare_spec a1 b1); try discriminate.
  destruct (Z.compare_spec a2 b2); try discriminate.
  destruct (Z.compare_spec a3 b3); try discriminate.
  intros _. congruence.
Qed.

Lemma lex3_lt_le_trans a b c : lex3 a b = Lt -> lex3_le b c -> lex3 a c = Lt.
Proof.
  unfold lex3_le, lex3.
  destruct (Z.compare_spec a.1.1 b.1.1), (Z.compare_spec b.1.1 c.1.1), (Z.compare_spec a.1.1 c.1.1);
    try lia; try congruence;
  destruct (Z.compare_spec a.1.2 b.1.2), (Z.compare_spec b.1.2 c.1.2), (Z.compare_spec a.1.2 c.1.2);
    try lia; try congruence;
  destruct (Z.compare_spec a.2 b.2), (Z.compare_spec b.2 c.2), (Z.compare_spec a.2 c.2);
    try lia; congruence.
Qed.

Lemma eqb_rank x y :
  PrimFloat.eqb x y =
  negb (is_nan x) && negb (is_nan y) &&
  match lex3 (sf_rank (Prim2SF x)) (sf_rank (Prim2SF y)) with Eq => true | _ => false end.
Proof.
  rewrite FloatAxioms.eqb_spec, !is_nan_spec. unfold SFeqb. rewrite SFcompare_rank.
  destruct (sf_is_nan (Prim2SF x)), (sf_is_nan (Prim2SF y)); reflexivity.
Qed.

Lemma leb_not_nan x y : PrimFloat.leb x y = true -> not_nan x /\ not_nan y.
Proof.
  rewrite leb_rank. unfold not_nan.
  destruct (is_nan x), (is_nan y); simpl; auto; discriminate.
Qed.

Lemma ltb_true_leb x y : PrimFloat.ltb x y = true -> PrimFloat.leb x y = true.
Proof.
  rewrite ltb_rank, leb_rank.
  destruct (is_nan x), (is_nan y), (lex3 _ _); simpl; congruence.
Qed.

Lemma ltb_leb_trans x y z :
  PrimFloat.ltb x y = true -> PrimFloat.leb y z = true -> PrimFloat.ltb x z = true.
Proof.
  rewrite !ltb_rank, leb_rank.
  destruct (is_nan x), (is_nan y), (is_nan z); simpl; try congruence.
  intros H1 H2.
  rewrite (lex3_lt_le_trans (sf_rank (Prim2SF x)) (sf_rank (Prim2SF y)) (sf_rank (Prim2SF z)));
    [reflexivity| |].
  - destruct (lex3 (sf_rank (Prim2SF x)) (sf_rank (Prim2SF y))); congruence.
  - unfold lex3_le. destruct (lex3 (sf_rank (Prim2SF y)) (sf_rank (Prim2SF z))); congruence.
Qed.

Lemma eqb_ltb_other x z k :
  PrimFloat.eqb x k = true -> PrimFloat.ltb x z = true -> PrimFloat.eqb z k = false.
Proof.
  rewrite !eqb_rank, ltb_rank.
  destruct (is_nan x), (is_nan z), (is_nan k); simpl; try congruence.
  destruct (lex3 (sf_rank (Prim2SF x)) (sf_rank (Prim2SF k))) eqn:E; try discriminate.
  apply lex3_eq in E. rewrite <- E. intros _.
  rewrite (lex3_antisym (sf_rank (Prim2SF x)) (sf_rank (Prim2SF z))).
  destruct (lex3 (sf_rank (Prim2SF x)) (sf_rank (Prim2SF z))); simpl; congruence.
Qed.

(** ** [sorted]: order and stability, for keys that are not NaN *)

Section SortedOrder.
Context {A : Type} (key : A -> float).

Lemma insert_sorted_ascending x l :
  not_nan (key x) -> keys_ok key l -> ascending key l ->
  ascending key (insert_sorted key x l).
Proof.
  unfold ascending, keys_ok. intros Hx. induction l as [|y l IH]; simpl; intros Hl Hs.
  - apply StronglySorted_cons. split; constructor.
  - apply Forall_cons in Hl as [Hy Hl].
    apply StronglySorted_cons in Hs as [Hyl Hs].
    destruct (PrimFloat.ltb (key x) (key y)) eqn:L.
    + apply StronglySorted_cons. split.
      * constructor; [apply ltb_true_leb; assumption|].
        eapply Forall_impl; [exact Hyl|]. simpl. intros z Hz.
        apply ltb_true_leb. eapply ltb_leb_trans; eauto.
      * apply StronglySorted_cons. auto.
    + apply StronglySorted_cons. split; [|auto].
      rewrite insert_sorted_perm. constructor; [|assumption].
      apply ltb_false_leb; assumption.
Qed.

Lemma insert_sorted_with_key k x l :
  ascending key l ->
  with_key key k (insert_sorted key x l)
  = with_key key k l ++ with_key key k [x].
Proof.
  unfold ascending, with_key. induction l as [|y l IH]; simpl; intros Hs.
  - reflexivity.
  - apply StronglySorted_cons in Hs as [Hyl Hs].
    destruct (PrimFloat.ltb (key x) (key y)) eqn:L.
    + simpl. destruct (PrimFloat.eqb (key x) k) eqn:E; [|rewrite app_nil_r; reflexivity].
      rewrite (eqb_ltb_other _ _ _ E L).
      assert (N : List.filter (fun z => PrimFloat.eqb (key z) k) l = []).
      { clear IH Hs. induction l as [|z l IHl]; [reflexivity|].
        apply Forall_cons in Hyl as [Hz Hyl]. simpl.
        rewrite (eqb_ltb_other _ _ _ E (ltb_leb_trans _ _ _ L Hz)). auto. }
      rewrite N. reflexivity.
    + simpl. rewrite (IH Hs). simpl.
      destruct (PrimFloat.eqb (key y) k); reflexivity.
Qed.

Lemma fold_insert_sorted l : forall acc,
  keys_ok key l -> keys_ok key acc -> ascending key acc ->
  let s := fold_left (fun acc x => insert_sorted key x acc) l acc in
  ascending key s /\ forall k, with_key key k s = with_key key k acc ++ with_key key k l.
Proof.
  induction l as [|x l IH]; simpl; intros acc Hl Ha Hs.
  - split; [assumption|]. intros k. unfold with_key. simpl. rewrite app_nil_r. reflexivity.
  - apply Forall_cons in Hl as [Hx Hl].
    destruct (IH (insert_sorted key x acc)) as [S1 S2].
    + assumption.
    + unfold keys_ok. rewrite insert_sorted_perm. constructor; assumption.
    + apply insert_sorted_ascending; assumption.
    + split; [exact S1|]. intros k. rewrite S2, insert_sorted_with_key by assumption.
      rewrite <- app_assoc. unfold with_key. simpl.
      destruct (PrimFloat.eqb (key x) k); reflexivity.
Qed.

Lemma ascending_rev l : ascending key l -> descending key (rev l).
Proof.
  unfold ascending, descending. induction l as [|x l IH]; simpl; intros Hs.
  - constructor.
  - apply StronglySorted_cons in Hs as [Hxl Hs].
    apply StronglySorted_app. split; [|split].
    + intros a b Ha Hb. apply list_elem_of_singleton in Hb as ->.
      rewrite Forall_forall in Hxl. apply Hxl.
      apply list_elem_of_In. apply in_rev. apply list_elem_of_In. exact Ha.
    + auto.
    + apply StronglySorted_cons. split; constructor.
Qed.

Theorem sorted_reverse_stable l :
  keys_ok key l -> stable_descending key l (sorted_reverse key l).
Proof.
  intros Hl. unfold stable_descending. split; [apply sorted_reverse_perm|].
  assert (Hr : keys_ok key (rev l)).
  { unfold keys_ok. rewrite <- Permutation_rev. exact Hl. }
  destruct (fold_insert_sorted (rev l) [] Hr) as [S1 S2];
    [constructor|constructor|].
  split.
  - apply ascending_rev. exact S1.
  - intros k. unfold sorted_reverse, sort_ascending, with_key in *.
    rewrite filter_rev, S2. simpl. rewrite filter_rev, rev_involutive. reflexivity.
Qed.
End SortedOrder.
(** ** The meme scanner *)



Lemma scan_pair_cases cands ch d st' :
  scan_pair (cands, ch) (PDict d) = Ok st' ->
  (exists chain, st' = (cands, Some chain) /\
     forall c, ~ passes d chain c) \/
  (exists chain c, st' = (cands ++ [c], Some chain) /\ passes d chain c).
Proof.
  unfold scan_pair.
  destruct (resolve_chain (dict_get d "chainId" (PInt 0))) as [chain|] eqn:R;
    simpl; [|discriminate].
  destruct (bool_decide_reflect (chain ∈ MEME_CHAINS)) as [M|M]; simpl.
  - destruct (nested_float d "liquidity" "usd") as [liq|] eqn:L; simpl; [|discriminate].
    destruct (nested_float d "volume" "h24") as [vol|] eqn:V; simpl; [|discriminate].
    destruct (nested_float d "priceChange" "h24") as [chg|] eqn:C; simpl; [|discriminate].
    destruct (PrimFloat.leb MIN_LIQUIDITY liq) eqn:H1; simpl.
    + destruct (PrimFloat.leb (PrimFloat.mul 0.1 liq) vol) eqn:H2; intros [= <-].
      * right. exists chain, (d, liq, vol, chg). split; [reflexivity|].
        exists liq, vol, chg. auto 10.
      * left. exists chain. split; [reflexivity|].
        intros c (liq' & vol' & chg' & _ & _ & L' & V' & _ & _ & H2' & _). congruence.
    + intros [= <-]. left. exists chain. split; [reflexivity|].
      intros c (liq' & vol' & chg' & _ & _ & L' & _ & _ & H1' & _). congruence.
  - intros [= <-]. left. exists chain. split; [reflexivity|].
    intros c (liq' & vol' & chg' & R' & M' & _). congruence.
Qed.





Lemma scan_pair_keys st p st' :
  scan_pair st p = Ok st' -> keys_ok volume_of st.1 -> keys_ok volume_of st'.1.
Proof.
  destruct st as [cands ch]. destruct p as [| | | | | |d]; try (intros [= <-]; auto).
  intros H K. destruct (scan_pair_cases _ _ _ _ H) as [(chain & -> & _)|(chain & c & -> & P)];
    simpl; [exact K|].
  unfold keys_ok. apply Forall_app. split; [exact K|].
  constructor; [|constructor].
  destruct P as (liq & vol & chg & _ & _ & _ & _ & _ & _ & H2 & ->).
  unfold volume_of. simpl. apply (leb_not_nan _ _ H2).
Qed.

Lemma foldM_scan_pair_keys ps : forall st st',
  foldM scan_pair ps st = Ok st' -> keys_ok volume_of st.1 -> keys_ok volume_of st'.1.
Proof.
  induction ps as [|p ps IH]; intros st st'; simpl.
  - intros [= <-]. auto.
  - destruct (scan_pair st p) as [st1|] eqn:P; simpl; [|discriminate].
    intros F K. eapply IH; [exact F|]. eapply scan_pair_keys; eauto.
Qed.

Lemma append_entries_some ch cs : forall res,
  append_entries (Some ch) cs res = Ok (res ++ map (meme_entry ch) cs).
Proof.
  induction cs as [|c cs IH]; intros res; simpl.
  - rewrite app_nil_r. reflexivity.
  - rewrite IH, <- app_assoc. reflexivity.
Qed.

Lemma append_entries_ok chain cs res res' :
  append_entries chain cs res = Ok res' ->
  exists ch, res' = res ++ map (meme_entry ch) cs.
Proof.
  destruct chain as [ch|].
  - rewrite append_entries_some. intros [= <-]. eauto.
  - destruct cs; simpl; [|discriminate]. intros [= <-].
    exists "". rewrite app_nil_r. reflexivity.
Qed.

Lemma contribution_nil fetch q :
  pairs_of fetch q = [] -> contribution fetch q [].
Proof.
  intros E. exists [], [], "". split; [|split].
  - exists None, None. rewrite E. reflexivity.
  - split; [reflexivity|]. split; [constructor|reflexivity].
  - reflexivity.
Qed.

Lemma scan_query_spec fetch res ch q st' :
  scan_query fetch (res, ch) q = Ok st' ->
  exists c, contribution fetch q c /\ st'.1 = res ++ c.
Proof.
  unfold scan_query. pose proof (contribution_nil fetch q) as Hnil.
  unfold pairs_of in Hnil.
  destruct (safe_request fetch (search_url q)) as [| | | |s|l|d] eqn:SR; simpl; try discriminate.
  - destruct (is_substring "error" s); simpl; discriminate.
  - destruct (existsb (is_str "error") l); simpl; discriminate.
  - destruct (bool_decide (is_Some (assoc_get d "error"))) eqn:B; simpl.
    + destruct (assoc_get d "error"); simpl; [|discriminate].
      intros [= <-]. exists []. rewrite app_nil_r. auto.
    + destruct (dict_get d "pairs" (PList [])) as [| | | | |ps|] eqn:G;
        try (intros [= <-]; exists []; rewrite app_nil_r; auto).
      destruct (foldM scan_pair ps ([], ch)) as [[cands chain]|] eqn:F; simpl; [|discriminate].
      destruct (append_entries chain (top3 cands) res) as [results|] eqn:AE; simpl; [|discriminate].
      intros [= <-]. simpl.
      destruct (append_entries_ok _ _ _ _ AE) as (ch' & ->).
      exists (map (meme_entry ch') (top3 cands)). split; [|reflexivity].
      exists cands, (sorted_reverse volume_of cands), ch'. split; [|split].
      * exists ch, chain. unfold pairs_of. rewrite SR, B, G. exact F.
      * apply sorted_reverse_stable.
        apply (foldM_scan_pair_keys _ _ _ F). constructor.
      * reflexivity.
Qed.

Lemma foldM_scan_query fetch qs : forall st st',
  foldM (scan_query fetch) qs st = Ok st' ->
  exists contribs,
    Forall2 (contribution fetch) qs contribs /\ st'.1 = st.1 ++ concat contribs.
Proof.
  induction qs as [|q qs IH]; intros st st'; simpl.
  - intros [= <-]. exists []. rewrite app_nil_r. split; [constructor|reflexivity].
  - destruct (scan_query fetch st q) as [st1|] eqn:Q; simpl; [|discriminate].
    intros F. destruct st as [res ch].
    destruct (scan_query_spec _ _ _ _ _ Q) as (c & Hc & E1).
    destruct (IH _ _ F) as (cs & Hcs & E2).
    exists (c :: cs). split; [constructor; assumption|].
    rewrite E2, E1. simpl. rewrite app_assoc. reflexivity.
Qed.

(** C4: the output of the meme scanner is the concatenation, in the order of
    the search terms, of each term's surviving candidates sorted in
    descending order of 24h volume (ties in feed order) and cut to three, the
    whole cut to its first 12 entries with no further sorting. *)
Theorem meme_output_order (fetch : string -> response) (results : list MemeEntry.t) :
  get_meme_coins fetch = Ok results ->
  exists contribs,
    Forall2 (contribution fetch) queries contribs /\
    results = take 12 (concat contribs).
Proof.
  unfold get_meme_coins.
  destruct (foldM (scan_query fetch) queries ([], None)) as [st|] eqn:F; simpl; [|discriminate].
  intros [= <-]. destruct (foldM_scan_query _ _ _ _ F) as (cs & Hcs & E).
  exists cs. split; [exact Hcs|]. rewrite E. reflexivity.
Qed.

Lemma meme_output_order_witness :
  exists contribs,
    Forall2 (contribution two_term_feed) queries contribs /\
    two_term_result = take 12 (concat contribs).
Proof.
  apply (meme_output_order two_term_feed two_term_result).
  vm_compute. reflexivity.
Defined.

(** ** Sizes *)

(** C9: each of the four buckets has at most 10 entries, the top picks at
    most 5 and the meme list at most 12. *)
Theorem result_sizes (mode : string) (fetch : string -> response)
    (xs : list YieldEntry.t) :
  match classify_yield_opportunities mode fetch with
  | Ok b =>
      (length (long_term b) <= 10)%nat /\ (length (short_term b) <= 10)%nat /\
      (length (focus b) <= 10)%nat /\ (length (layer2 b) <= 10)%nat /\
      (length (top_picks b) <= 5)%nat
  | Raise _ => True
  end /\
  match get_meme_coins fetch with
  | Ok l => (length l <= 12)%nat
  | Raise _ => True
  end /\
  (length (get_top_picks xs) <= 5)%nat.
Proof.
  split; [|split].
  - destruct (classify_yield_opportunities mode fetch) as [b|] eqn:C; [|exact I].
    assert (T : (length (top_picks b) <= 5)%nat) by apply firstn_le_length.
    destruct (classify_spec _ _ _ C) as [->|(st & _ & ->)]; simpl in *.
    + repeat split; auto; lia.
    + repeat split; auto using top10_length.
  - unfold get_meme_coins.
    destruct (foldM (scan_query fetch) queries ([], None)); simpl; [|exact I].
    apply firstn_le_length.
  - apply firstn_le_length.
Qed.

(** ** Top picks *)

Lemma all_opportunities_app b :
  all_opportunities b = long_term b ++ short_term b ++ focus b ++ layer2 b.
Proof.
  unfold all_opportunities, bucket_values. simpl. rewrite <- !app_assoc. reflexivity.
Qed.

(** C8 (as amended): when no [ror] of the input is NaN, [get_top_picks]
    returns the first five entries of its input sorted in descending order of
    [ror], entries of equal [ror] keeping their input order; its input is the
    four buckets one after the other, so an entry of both [focus] and
    [layer2] stands at two positions. *)
Theorem top_picks_order (l : list YieldEntry.t) (b : buckets) :
  keys_ok YieldEntry.ror l ->
  (exists s, stable_descending YieldEntry.ror l s /\ get_top_picks l = take 5 s) /\
  top_picks b = get_top_picks (long_term b ++ short_term b ++ focus b ++ layer2 b) /\
  (forall e, e ∈ focus b -> e ∈ layer2 b ->
     exists i j, (i < j)%nat /\
       all_opportunities b !! i = Some e /\ all_opportunities b !! j = Some e).
Proof.
  intros K. split; [|split].
  - exists (sorted_reverse YieldEntry.ror l). split; [|reflexivity].
    apply sorted_reverse_stable. exact K.
  - unfold top_picks. rewrite all_opportunities_app. reflexivity.
  - intros e Hf Hl. rewrite all_opportunities_app.
    apply list_elem_of_lookup in Hf as [i Hi]. apply list_elem_of_lookup in Hl as [j Hj].
    pose proof (lookup_lt_Some _ _ _ Hi) as Li.
    exists (length (long_term b) + length (short_term b) + i)%nat,
           (length (long_term b) + length (short_term b) + length (focus b) + j)%nat.
    split; [lia|]. split.
    + rewrite lookup_app_r by lia. rewrite lookup_app_r by lia.
      rewrite lookup_app_l by lia. rewrite <- Hi. f_equal. lia.
    + rewrite lookup_app_r by lia. rewrite lookup_app_r by lia.
      rewrite lookup_app_r by lia. rewrite <- Hj. f_equal. lia.
Qed.

Lemma top_picks_order_witness :
  (exists s,
     stable_descending YieldEntry.ror [pick_a; pick_b; pick_c] s /\
     get_top_picks [pick_a; pick_b; pick_c] = take 5 s) /\
  top_picks (mk_buckets [] [] [beefy_entry] [beefy_entry])
  = get_top_picks ([] ++ [] ++ [beefy_entry] ++ [beefy_entry]) /\
  (forall e, e ∈ [beefy_entry] -> e ∈ [beefy_entry] ->
     exists i j, (i < j)%nat /\
       all_opportunities (mk_buckets [] [] [beefy_entry] [beefy_entry]) !! i = Some e /\
       all_opportunities (mk_buckets [] [] [beefy_entry] [beefy_entry]) !! j = Some e).
Proof.
  apply (top_picks_order [pick_a; pick_b; pick_c]
           (mk_buckets [] [] [beefy_entry] [beefy_entry])).
  repeat constructor.
Defined.

(** C8 (as stated) fails on a NaN score: the feed with a pool of apy NaN and
    the beefy pool gives the flattened input [nan_entry; beefy_entry]; the
    top picks are that list unchanged, the entry of score 20 standing after
    the entry of score NaN, which is no descending order of the input. *)
Lemma top_picks_order_fails_on_nan :
  exists b : buckets,
    classify_yield_opportunities "ror" (feed_of [nan_pool; beefy_pool]) = Ok b /\
    all_opportunities b = [nan_entry; beefy_entry] /\
    top_picks b = [nan_entry; beefy_entry] /\
    PrimFloat.leb (YieldEntry.ror beefy_entry) (YieldEntry.ror nan_entry) = false /\
    ~ (exists s,
         stable_descending YieldEntry.ror (all_opportunities b) s /\
         top_picks b = take 5 s).
Proof.
  exists (mk_buckets [] [nan_entry] [beefy_entry] []).
  split; [vm_compute; reflexivity|].
  split; [reflexivity|]. split; [vm_compute; reflexivity|].
  split; [reflexivity|].
  intros (s & (P & D & _) & E).
  change (all_opportunities (mk_buckets [] [nan_entry] [beefy_entry] []))
    with [nan_entry; beefy_entry] in P.
  assert (L : length s = 2%nat) by (rewrite P; reflexivity).
  rewrite take_ge in E by lia.
  assert (T : top_picks (mk_buckets [] [nan_entry] [beefy_entry] [])
              = [nan_entry; beefy_entry]) by (vm_compute; reflexivity).
  rewrite T in E. subst s.
  unfold descending in D. apply StronglySorted_inv in D as [_ D].
  apply Forall_inv in D. vm_compute in D. discriminate.
Qed.

(** Entries of equal score keep their input order; a duplicate is kept. *)
Example top_picks_ties :
  get_top_picks [pick_a; pick_b; pick_c] = [pick_b; pick_a; pick_c] /\
  top_picks (mk_buckets [] [] [beefy_entry] [beefy_entry]) = [beefy_entry; beefy_entry].
Proof. split; vm_compute; reflexivity. Qed.
(** ** Strings *)

#[local] Arguments append : simpl nomatch.

Lemma append_nil_r s : s +:+ "" = s.
Proof. induction s; simpl; congruence. Qed.

Lemma append_assoc s1 s2 s3 : (s1 +:+ s2) +:+ s3 = s1 +:+ (s2 +:+ s3).
Proof. induction s1; simpl; congruence. Qed.

Lemma length_append s1 s2 :
  String.length (s1 +:+ s2) = (String.length s1 + String.length s2)%nat.
Proof. induction s1; simpl; congruence. Qed.

Lemma length_zeros n : String.length (zeros n) = n.
Proof. induction n; simpl; congruence. Qed.

Lemma all_chars_append P s1 s2 :
  all_chars P (s1 +:+ s2) = all_chars P s1 && all_chars P s2.
Proof. induction s1; simpl; [reflexivity|]. rewrite IHs1, andb_assoc. reflexivity. Qed.

Lemma all_chars_impl (P Q : ascii -> bool) s :
  (forall c, P c = true -> Q c = true) -> all_chars P s = true -> all_chars Q s = true.
Proof.
  intros H. induction s as [|c s IH]; simpl; [reflexivity|].
  intros [Hc Hs]%andb_true_iff. rewrite (H c Hc), (IH Hs). reflexivity.
Qed.

Lemma replace_other old new s :
  all_chars (fun c => negb (Ascii.eqb c old)) s = true -> replace old new s = s.
Proof.
  induction s as [|c s IH]; simpl; [reflexivity|].
  intros [Hc Hs]%andb_true_iff. apply negb_true_iff in Hc. rewrite Hc, (IH Hs). reflexivity.
Qed.

Lemma replace_append old new s1 s2 :
  replace old new (s1 +:+ s2) = replace old new s1 +:+ replace old new s2.
Proof.
  induction s1 as [|c s1 IH]; simpl; [reflexivity|].
  destruct (Ascii.eqb c old); simpl; rewrite IH, ?append_assoc; reflexivity.
Qed.

Lemma lstrip_by_id sp s :
  all_chars (fun c => negb (sp c)) s = true -> lstrip_by sp s = s.
Proof.
  destruct s as [|c s]; simpl; [reflexivity|].
  intros [Hc _]%andb_true_iff. apply negb_true_iff in Hc. rewrite Hc. reflexivity.
Qed.

Lemma rstrip_by_id sp s :
  all_chars (fun c => negb (sp c)) s = true -> rstrip_by sp s = s.
Proof.
  induction s as [|c s IH]; simpl; [reflexivity|].
  intros [Hc Hs]%andb_true_iff. apply negb_true_iff in Hc. rewrite (IH Hs), Hc.
  destruct s; reflexivity.
Qed.

Lemma strip_by_id sp s :
  all_chars (fun c => negb (sp c)) s = true -> strip_by sp s = s.
Proof.
  intros H. unfold strip_by. rewrite (lstrip_by_id _ _ H). apply rstrip_by_id, H.
Qed.

Lemma underscores_ok_none s : forall prev,
  Ascii.eqb prev "_" = false ->
  all_chars (fun c => negb (Ascii.eqb c "_")) s = true ->
  underscores_ok prev s = true.
Proof.
  induction s as [|c s IH]; simpl; intros prev Hp.
  - intros _. rewrite Hp. reflexivity.
  - intros [Hc Hs]%andb_true_iff. apply negb_true_iff in Hc.
    rewrite Hc, Hp. simpl. apply IH; assumption.
Qed.

Lemma lower_id s :
  all_chars (fun c => negb (is_upper c)) s = true -> lower s = s.
Proof.
  induction s as [|c s IH]; simpl; [reflexivity|].
  intros [Hc Hs]%andb_true_iff. apply negb_true_iff in Hc.
  unfold lower_char. rewrite Hc, (IH Hs). reflexivity.
Qed.

Lemma split_at_none p s :
  all_chars (fun c => negb (p c)) s = true -> split_at p s = (s, None).
Proof.
  induction s as [|c s IH]; simpl; [reflexivity|].
  intros [Hc Hs]%andb_true_iff. apply negb_true_iff in Hc.
  rewrite Hc, (IH Hs). reflexivity.
Qed.

Lemma split_at_first p s1 c s2 :
  all_chars (fun c => negb (p c)) s1 = true -> p c = true ->
  split_at p (s1 +:+ String c s2) = (s1, Some s2).
Proof.
  intros H Hc. induction s1 as [|c1 s1 IH]; simpl.
  - rewrite Hc. reflexivity.
  - simpl in H. apply andb_true_iff in H as [H1 Hs]. apply negb_true_iff in H1.
    rewrite H1, (IH Hs). reflexivity.
Qed.

Lemma commas_replace s :
  all_chars (fun c => negb (Ascii.eqb c ",")) s = true ->
  replace "," "" (commas s) = s.
Proof.
  induction s as [|c s IH]; simpl; [reflexivity|].
  intros [Hc Hs]%andb_true_iff. apply negb_true_iff in Hc. rewrite Hc.
  match goal with |- context [if ?b then _ else _] => destruct b end; simpl;
    rewrite (IH Hs); reflexivity.
Qed.

(** ** Decimal numerals *)

Lemma string_of_uint_digits d : all_chars is_digit (NilEmpty.string_of_uint d) = true.
Proof. induction d; simpl; auto. Qed.

Lemma N_to_string_digits n : all_chars is_digit (N_to_string n) = true.
Proof. apply string_of_uint_digits. Qed.

Lemma N_to_string_head n :
  exists c s, N_to_string n = String c s /\ is_digit c = true.
Proof.
  pose proof (N_to_string_digits n) as H.
  destruct (N_to_string n) as [|c s] eqn:E.
  - exfalso. unfold N_to_string in E.
    assert (U : N.to_uint n = Nil) by (destruct (N.to_uint n); simpl in E; congruence).
    destruct n as [|p]; [discriminate|].
    simpl in U. exact (DecimalPos.Unsigned.to_uint_nonnil p U).
  - simpl in H. apply andb_true_iff in H as [H _]. eauto.
Qed.

Lemma N_of_digits_to_string n : N_of_digits (N_to_string n) = Some n.
Proof.
  unfold N_of_digits, N_to_string. rewrite NilEmpty.usu. simpl.
  rewrite DecimalN.Unsigned.of_to. reflexivity.
Qed.

Lemma N_of_digits_zeros k s : N_of_digits (zeros k +:+ s) = N_of_digits s.
Proof.
  induction k as [|k IH]; simpl; [reflexivity|].
  unfold N_of_digits in *. simpl.
  destruct (NilEmpty.uint_of_string (zeros k +:+ s)) as [d|],
           (NilEmpty.uint_of_string s) as [d'|]; simpl in *; congruence.
Qed.
(** ** Reading a formatted number back *)

Lemma numeral_char_facts c :
  is_numeral_char c = true ->
  is_c_space c = false /\ is_space c = false /\ Ascii.eqb c "_" = false /\
  is_upper c = false /\ is_exp_mark c = false /\
  Ascii.eqb c "%" = false /\ Ascii.eqb c "$" = false /\ Ascii.eqb c "," = false.
Proof.
  destruct c as [[|] [|] [|] [|] [|] [|] [|] [|]]; vm_compute;
    intros H; try discriminate H; repeat split.
Qed.

Lemma digit_facts c :
  is_digit c = true ->
  is_numeral_char c = true /\ is_point c = false /\
  Ascii.eqb c "-" = false /\ Ascii.eqb c "+" = false /\
  Ascii.eqb c "i" = false /\ Ascii.eqb c "n" = false /\ Ascii.eqb c "," = false.
Proof.
  destruct c as [[|] [|] [|] [|] [|] [|] [|] [|]]; vm_compute;
    intros H; try discriminate H; repeat split.
Qed.

Lemma point_numeral : is_numeral_char "." = true.
Proof. reflexivity. Qed.

Ltac char_facts Hc :=
  first
    [ let Hn := fresh "Hn" in
      pose proof (digit_facts _ Hc) as (Hn & ? & ? & ? & ? & ? & ?);
      pose proof (numeral_char_facts _ Hn) as (? & ? & ? & ? & ? & ? & ? & ?)
    | pose proof (numeral_char_facts _ Hc) as (? & ? & ? & ? & ? & ? & ? & ?) ].

(** [all_chars Q s] from [H : all_chars P s], for character classes [P]
    (digits or numeral characters) and [Q] (the complement of a class that
    holds none of them) *)
Ltac char_class H :=
  eapply all_chars_impl; [|exact H]; cbv beta;
  let c := fresh "c" in let Hc := fresh "Hc" in
  intros c Hc; char_facts Hc;
  repeat match goal with E : _ = false |- _ => rewrite E end;
  first [ reflexivity | assumption ].

Lemma sign_string_numeral s : all_chars is_numeral_char (sign_string s) = true.
Proof. destruct s; reflexivity. Qed.

Lemma digits_numeral s : all_chars is_digit s = true -> all_chars is_numeral_char s = true.
Proof. intros H. char_class H. Qed.

(** A signed numeral that starts with a digit reads as its decimal value. *)
Lemma float_of_string_numeral (s : bool) (body : string) (c0 : ascii) (rest : string)
    (n : N) (e : Z) :
  body = String c0 rest -> is_digit c0 = true ->
  all_chars is_numeral_char body = true ->
  parse_decimal body = Some (n, e) ->
  float_of_string (sign_string s +:+ body) = Ok (float_of_decimal s n e).
Proof.
  intros Eb Hd Hb Hp. unfold float_of_string.
  assert (Ht : all_chars is_numeral_char (sign_string s +:+ body) = true).
  { rewrite all_chars_append, sign_string_numeral, Hb. reflexivity. }
  rewrite strip_by_id by (char_class Ht).
  rewrite underscores_ok_none; [|reflexivity|char_class Ht].
  rewrite replace_other by (char_class Ht).
  assert (Es : split_sign (sign_string s +:+ body) = (s, body)).
  { destruct s; simpl; [reflexivity|]. rewrite Eb.
    apply digit_facts in Hd as (_ & _ & Hm & Hpl & _).
    unfold split_sign. destruct c0 as [[|] [|] [|] [|] [|] [|] [|] [|]];
      try reflexivity; vm_compute in Hm, Hpl; discriminate. }
  rewrite Es. rewrite lower_id by (char_class Hb).
  assert (Ew : forall w c1, Ascii.eqb c0 c1 = false -> String.eqb body (String c1 w) = false).
  { intros w c1 H. rewrite Eb. simpl. rewrite H. reflexivity. }
  pose proof (digit_facts _ Hd) as (_ & _ & _ & _ & Hi & Hn & _).
  change "inf" with (String "i" "nf"). change "infinity" with (String "i" "nfinity").
  change "nan" with (String "n" "an").
  rewrite !Ew by assumption. simpl. rewrite Hp. reflexivity.
Qed.

Lemma N_to_string_nonempty n : String.eqb (N_to_string n) "" = false.
Proof. destruct (N_to_string_head n) as (c & s & -> & _). reflexivity. Qed.

Lemma parse_decimal_integer n : parse_decimal (N_to_string n) = Some (n, 0).
Proof.
  unfold parse_decimal.
  pose proof (N_to_string_digits n) as D.
  rewrite split_at_none by (char_class D).
  rewrite split_at_none by (char_class D). simpl.
  rewrite N_to_string_nonempty, N_of_digits_to_string. simpl.
  do 2 f_equal. lia.
Qed.

Lemma small_numeral_lengths :
  forallb (fun k => (String.length (N_to_string (N.of_nat k)) <=? 2)%nat) (seq 0 100) = true.
Proof. vm_compute. reflexivity. Qed.

Lemma length_N_to_string_small b :
  (b < 100)%N -> (String.length (N_to_string b) <= 2)%nat.
Proof.
  intros H. pose proof small_numeral_lengths as F.
  rewrite forallb_forall in F. specialize (F (N.to_nat b)).
  rewrite N2Nat.id in F. apply Nat.leb_le, F, in_seq. lia.
Qed.

Lemma zero_pad_small b :
  (b < 100)%N ->
  String.length (zero_pad 2 (N_to_string b)) = 2%nat /\
  all_chars is_digit (zero_pad 2 (N_to_string b)) = true /\
  N_of_digits (zero_pad 2 (N_to_string b)) = Some b.
Proof.
  intros H. pose proof (length_N_to_string_small b H) as L.
  destruct (N_to_string_head b) as (c & s & E & _).
  unfold zero_pad. split; [|split].
  - rewrite length_append, length_zeros. rewrite E in *. simpl in *. lia.
  - rewrite all_chars_append, N_to_string_digits, andb_true_r.
    generalize (2 - String.length (N_to_string b))%nat. intros k.
    induction k; simpl; auto.
  - rewrite N_of_digits_zeros. apply N_of_digits_to_string.
Qed.

Lemma parse_decimal_fixed2 a b :
  (b < 100)%N ->
  parse_decimal (N_to_string a +:+ String "." (zero_pad 2 (N_to_string b)))
  = Some ((a * 100 + b)%N, -2).
Proof.
  intros H. destruct (zero_pad_small b H) as (L & D & V).
  pose proof (N_to_string_digits a) as Da.
  unfold parse_decimal.
  assert (W : all_chars (fun c => is_digit c || is_point c)
                (N_to_string a +:+ String "." (zero_pad 2 (N_to_string b))) = true).
  { rewrite all_chars_append. simpl.
    rewrite (all_chars_impl is_digit _ _ (fun c H => orb_true_intro _ _ (or_introl H)) Da).
    rewrite (all_chars_impl is_digit _ _ (fun c H => orb_true_intro _ _ (or_introl H)) D).
    reflexivity. }
  rewrite split_at_none.
  2:{ eapply all_chars_impl; [|exact W]. simpl. intros c Hc.
      assert (N : is_numeral_char c = true)
        by (unfold is_numeral_char; rewrite Hc; reflexivity).
      apply numeral_char_facts in N as (_ & _ & _ & _ & -> & _). reflexivity. }
  rewrite split_at_first; [|char_class Da|reflexivity]. simpl.
  rewrite N_to_string_nonempty, N_of_digits_to_string. simpl.
  rewrite V. simpl. rewrite L. reflexivity.
Qed.

Lemma fixed_of_N_2 n :
  fixed_of_N false 2 n
  = N_to_string (n / 100) +:+ String "." (zero_pad 2 (N_to_string (n mod 100))).
Proof. reflexivity. Qed.

Lemma fixed_of_N_0 n : fixed_of_N true 0 n = commas (N_to_string n).
Proof.
  unfold fixed_of_N. simpl. rewrite N.div_1_r, append_nil_r. reflexivity.
Qed.

Lemma fixed2_numeral n :
  exists c rest,
    fixed_of_N false 2 n = String c rest /\ is_digit c = true /\
    all_chars is_numeral_char (fixed_of_N false 2 n) = true.
Proof.
  rewrite fixed_of_N_2.
  assert (H : (n mod 100 < 100)%N) by (apply N.mod_lt; discriminate).
  destruct (zero_pad_small _ H) as (_ & D & _).
  destruct (N_to_string_head (n / 100)) as (c & rest & E & Hc).
  exists c, (rest +:+ String "." (zero_pad 2 (N_to_string (n mod 100)))).
  split; [rewrite E; reflexivity|]. split; [exact Hc|].
  rewrite all_chars_append. simpl.
  rewrite (digits_numeral _ (N_to_string_digits _)), (digits_numeral _ D). reflexivity.
Qed.

(** [float] of a [.2f] numeral *)
Lemma float_of_fixed2 s n :
  float_of_string (sign_string s +:+ fixed_of_N false 2 n)
  = Ok (float_of_decimal s n (-2)).
Proof.
  destruct (fixed2_numeral n) as (c & rest & E & Hc & Hn).
  apply (float_of_string_numeral s _ c rest); auto.
  rewrite fixed_of_N_2, parse_decimal_fixed2 by (apply N.mod_lt; discriminate).
  do 2 f_equal. rewrite N.mul_comm. symmetry. apply N.div_mod. discriminate.
Qed.

(** [float] of an integer numeral *)
Lemma float_of_integer s n :
  float_of_string (sign_string s +:+ N_to_string n) = Ok (float_of_decimal s n 0).
Proof.
  destruct (N_to_string_head n) as (c & rest & E & Hc).
  apply (float_of_string_numeral s _ c rest); auto.
  - apply digits_numeral, N_to_string_digits.
  - apply parse_decimal_integer.
Qed.
Lemma commas_chars (P : ascii -> bool) s :
  P ","%char = true -> all_chars P s = true -> all_chars P (commas s) = true.
Proof.
  intros Hc. induction s as [|c s IH]; simpl; [reflexivity|].
  intros [H1 H2]%andb_true_iff. rewrite H1. simpl.
  match goal with |- context [if ?b then _ else _] => destruct b end; simpl;
    rewrite ?Hc, (IH H2); reflexivity.
Qed.

Lemma float_of_SF x sf : Prim2SF x = sf -> x = SF2Prim sf.
Proof. intros <-. symmetry. apply SF2Prim_Prim2SF. Qed.

(** The value read back from the stored [apy_str] *)
Lemma apy_str_roundtrip x :
  float_of_string (strip (replace "%" "" (format_fixed false 2 x +:+ "%")))
  = Ok (round_to_decimals 2 x).
Proof.
  unfold format_fixed, round_to_decimals.
  destruct (Prim2SF x) as [s|s| |s m e] eqn:E.
  - rewrite (float_of_SF _ _ E). destruct s; vm_compute; reflexivity.
  - rewrite (float_of_SF _ _ E). destruct s; vm_compute; reflexivity.
  - rewrite (float_of_SF _ _ E). vm_compute. reflexivity.
  - set (n := scaled_round m e 2).
    destruct (fixed2_numeral n) as (c & rest & _ & _ & Hn).
    assert (Ht : all_chars is_numeral_char (sign_string s +:+ fixed_of_N false 2 n) = true).
    { rewrite all_chars_append, sign_string_numeral, Hn. reflexivity. }
    rewrite replace_append, replace_other by (char_class Ht).
    change (replace "%" "" "%") with "". rewrite append_nil_r.
    unfold strip. rewrite strip_by_id by (char_class Ht).
    apply float_of_fixed2.
Qed.

(** The value read back from the stored [tvl_str] *)
Lemma tvl_str_roundtrip x :
  float_of_string
    (strip (replace "," "" (replace "$" "" ("$" +:+ format_fixed true 0 x))))
  = Ok (round_to_decimals 0 x).
Proof.
  unfold format_fixed, round_to_decimals.
  destruct (Prim2SF x) as [s|s| |s m e] eqn:E.
  - rewrite (float_of_SF _ _ E). destruct s; vm_compute; reflexivity.
  - rewrite (float_of_SF _ _ E). destruct s; vm_compute; reflexivity.
  - rewrite (float_of_SF _ _ E). vm_compute. reflexivity.
  - set (n := scaled_round m e 0). rewrite fixed_of_N_0.
    pose proof (N_to_string_digits n) as D.
    assert (Hs : forall P, P "-"%char = true -> all_chars P (sign_string s) = true)
      by (intros P HP; destruct s; simpl; rewrite ?HP; reflexivity).
    change ("$" +:+ ?X) with (String "$" X). simpl replace.
    rewrite (replace_other "$").
    2:{ rewrite all_chars_append, Hs by reflexivity.
        apply commas_chars; [reflexivity|]. char_class D. }
    rewrite replace_append, commas_replace by (char_class D).
    rewrite replace_other by (apply Hs; reflexivity).
    assert (Ht : all_chars is_numeral_char (sign_string s +:+ N_to_string n) = true).
    { rewrite all_chars_append, sign_string_numeral, (digits_numeral _ D). reflexivity. }
    unfold strip. rewrite strip_by_id by (char_class Ht).
    apply float_of_integer.
Qed.

(** C10: the numbers are stored as display strings and read back rounded:
    [apy_value] is apy rounded to 2 decimals and [tvl_value] is tvl rounded
    to a whole number, so the sort keys of the modes apy, apr and tvl are the
    rounded values.  An apy of 23.456 reads back as 23.46 and a tvl of
    1234567.5 as 1234568; in mode apy two entries of apy 10.001 and 10.004
    have equal keys and keep their feed order. *)
Theorem display_values_are_rounded (r : list (string * pyval)) (apy tvl : float) :
  let e := make_entry r apy tvl in
  YieldEntry.apy_value e = round_to_decimals 2 apy /\
  YieldEntry.tvl_value e = round_to_decimals 0 tvl /\
  sort_key "apy" e = round_to_decimals 2 apy /\
  sort_key "apr" e = round_to_decimals 2 apy /\
  sort_key "tvl" e = round_to_decimals 0 tvl /\
  sort_key "ror" e = calc_ror apy (YieldEntry.risk e) /\
  round_to_decimals 2 23.456 = 23.46%float /\
  round_to_decimals 0 1234567.5 = 1234568%float /\
  PrimFloat.ltb 10.001 10.004 = true /\
  top10 "apy" [make_entry r 10.001 tvl; make_entry r 10.004 tvl]
  = [make_entry r 10.001 tvl; make_entry r 10.004 tvl].
Proof.
  intros e.
  assert (A : YieldEntry.apy_value e = round_to_decimals 2 apy).
  { change (YieldEntry.apy_value e)
      with (try_except
              (float_of_string (strip (replace "%" "" (format_fixed false 2 apy +:+ "%"))))
              0%float).
    rewrite apy_str_roundtrip. reflexivity. }
  assert (T : YieldEntry.tvl_value e = round_to_decimals 0 tvl).
  { change (YieldEntry.tvl_value e)
      with (try_except
              (float_of_string
                 (strip (replace "," "" (replace "$" "" ("$" +:+ format_fixed true 0 tvl)))))
              0%float).
    rewrite tvl_str_roundtrip. reflexivity. }
  assert (S : sort_key "apy" e = round_to_decimals 2 apy /\
              sort_key "apr" e = round_to_decimals 2 apy /\
              sort_key "tvl" e = round_to_decimals 0 tvl).
  { repeat split; assumption. }
  destruct S as (S1 & S2 & S3).
  do 6 (split; [first [assumption | reflexivity]|]).
  repeat split; vm_compute; reflexivity.
Qed.
(** * Further properties of the scanner *)

(** ** More on the order of floats *)

Lemma ltb_asym x y : PrimFloat.ltb x y = true -> PrimFloat.ltb y x = false.
Proof.
  intros H. destruct (PrimFloat.ltb y x) eqn:E; [|reflexivity].
  apply ltb_true_leb in E. rewrite (ltb_true_leb_false _ _ H) in E. discriminate.
Qed.

Lemma leb_ltb_trans x y z :
  PrimFloat.leb x y = true -> PrimFloat.ltb y z = true -> PrimFloat.ltb x z = true.
Proof.
  intros H1 H2. destruct (PrimFloat.ltb x z) eqn:E; [reflexivity|].
  destruct (leb_not_nan _ _ H1) as [Nx _].
  destruct (leb_not_nan _ _ (ltb_true_leb _ _ H2)) as [_ Nz].
  pose proof (ltb_false_leb _ _ Nx Nz E) as H3.
  pose proof (leb_trans _ _ _ H3 H1) as H4.
  rewrite (ltb_true_leb_false _ _ H2) in H4. discriminate.
Qed.

Lemma leb_refl x : not_nan x -> PrimFloat.leb x x = true.
Proof.
  unfold not_nan. intros N. rewrite leb_rank, N. simpl.
  assert (H : lex3 (sf_rank (Prim2SF x)) (sf_rank (Prim2SF x)) = Eq).
  { unfold lex3. rewrite !Z.compare_refl. reflexivity. }
  rewrite H. reflexivity.
Qed.

(** ** The decision table of [risk_score] *)

(** X1: [risk_score] is Low exactly for a focus protocol, or for a tvl above
    50,000,000 with an apy below 15. *)
Theorem risk_score_low_iff (apy tvl : float) (project : string) :
  risk_score apy tvl project = "Low" <->
  lower project ∈ FOCUS_PROTOCOLS \/
  (PrimFloat.ltb 50000000 tvl = true /\ PrimFloat.ltb apy 15 = true).
Proof.
  unfold risk_score.
  destruct (bool_decide_reflect (lower project ∈ FOCUS_PROTOCOLS)) as [F|F]; [tauto|].
  destruct (PrimFloat.ltb 50000000 tvl) eqn:A, (PrimFloat.ltb apy 15) eqn:B; simpl;
    try tauto;
    repeat match goal with |- context [if ?b then _ else _] => destruct b end;
    split; try discriminate; intros [?|[? ?]]; try contradiction; discriminate.
Qed.

(** X2: [risk_score] is High exactly for a project outside the focus set
    with a tvl below 5,000,000 or an apy above 50. *)
Theorem risk_score_high_iff (apy tvl : float) (project : string) :
  risk_score apy tvl project = "High" <->
  (lower project ∉ FOCUS_PROTOCOLS) /\
  (PrimFloat.ltb tvl 5000000 = true \/ PrimFloat.ltb 50 apy = true).
Proof.
  unfold risk_score.
  destruct (bool_decide_reflect (lower project ∈ FOCUS_PROTOCOLS)) as [F|F];
    [split; [discriminate|tauto]|].
  destruct (PrimFloat.ltb tvl 5000000) eqn:A.
  - assert (T : PrimFloat.ltb tvl 50000000 = true)
      by (apply (ltb_leb_trans _ _ _ A); reflexivity).
    rewrite (ltb_asym _ _ T), (ltb_true_leb_false _ _ A). simpl. tauto.
  - destruct (PrimFloat.ltb 50 apy) eqn:B.
    + assert (T : PrimFloat.ltb 15 apy = true).
      { apply (leb_ltb_trans _ 50); [reflexivity|exact B]. }
      rewrite (ltb_asym _ _ T), (ltb_true_leb_false _ _ B).
      rewrite !andb_false_r. simpl. tauto.
    + simpl.
      repeat match goal with |- context [if ?b then _ else _] => destruct b end;
        split; try discriminate; intros [_ [?|?]]; discriminate.
Qed.

(** X3: the two regions the bands leave out, a tvl above 50,000,000 with
    15 <= apy <= 50 and a tvl between 5,000,000 and 50,000,000 with an apy
    below 15, are Medium by the last [return]. *)
Theorem risk_score_gap_regions (apy tvl : float) (project : string) :
  lower project ∉ FOCUS_PROTOCOLS ->
  (PrimFloat.ltb 50000000 tvl = true /\
   PrimFloat.leb 15 apy = true /\ PrimFloat.leb apy 50 = true) \/
  (PrimFloat.leb 5000000 tvl = true /\ PrimFloat.leb tvl 50000000 = true /\
   PrimFloat.ltb apy 15 = true) ->
  risk_score apy tvl project = "Medium".
Proof.
  intros F H. unfold risk_score. rewrite bool_decide_eq_false_2 by assumption.
  destruct H as [(T & A1 & A2)|(T1 & T2 & A)].
  - rewrite T, (leb_true_ltb_false _ _ A1), (ltb_true_leb_false _ _ T).
    rewrite (leb_true_ltb_false _ _ A2). simpl.
    assert (T' : PrimFloat.ltb 5000000 tvl = true).
    { apply (leb_ltb_trans _ 50000000); [reflexivity|exact T]. }
    rewrite (ltb_asym _ _ T'), andb_false_r. reflexivity.
  - rewrite (leb_true_ltb_false _ _ T2), T1, T2, (ltb_true_leb_false _ _ A).
    rewrite (leb_true_ltb_false _ _ T1). simpl.
    assert (A' : PrimFloat.ltb apy 50 = true).
    { apply (ltb_leb_trans _ 15); [exact A|reflexivity]. }
    rewrite (ltb_asym _ _ A'), ?andb_false_r. reflexivity.
Qed.

Lemma risk_score_gap_regions_witness :
  risk_score 20 60000000 "uniswap" = "Medium".
Proof.
  apply risk_score_gap_regions; [compute_done|].
  left. repeat split; reflexivity.
Defined.
(** ** What the classifier returns *)

Lemma Forall_top10 (P : YieldEntry.t -> Prop) mode l :
  Forall P l -> Forall P (top10 mode l).
Proof.
  rewrite !Forall_forall. intros H e He. apply H.
  unfold top10 in He. eapply elem_of_take_sorted. exact He.
Qed.

Lemma bucket_rules_assign st r apy tvl :
  bucket_rules st ->
  bucket_rules
    (assign st (str_field r "project" "")
       (risk_score apy tvl (str_field r "project" ""))
       (lower (str_field r "chain" "N/A")) (make_entry r apy tvl)).
Proof.
  intros (Hf & Hl & Hs & H2).
  destruct (assign_appended_once st r apy tvl) as [H HL2].
  destruct (make_entry_fields r apy tvl) as (Ep & _ & Er & _).
  set (st' := assign _ _ _ _ _) in *. set (e := make_entry r apy tvl) in *.
  assert (L2 : Forall (fun e => YieldEntry.chain e ∈ LAYER2_CHAINS) (layer2 st')).
  { rewrite HL2. destruct (bool_decide_reflect (YieldEntry.chain e ∈ LAYER2_CHAINS));
      [apply Forall_app; split; [assumption|repeat constructor; assumption]|assumption]. }
  pose proof (risk_score_tiers apy tvl (str_field r "project" "")) as T.
  rewrite <- Er in T.
  unfold bucket_rules.
  destruct H as [(F & E1 & E2 & E3)|[(F & R & E1 & E2 & E3)|(F & R & E1 & E2 & E3)]];
    rewrite E1, E2, E3.
  - split; [|auto]. apply Forall_app. split; [assumption|].
    constructor; [|constructor]. split; [exact F|].
    rewrite Er. apply risk_score_focus. rewrite <- Ep. exact F.
  - split; [assumption|]. split; [|auto].
    apply Forall_app. split; [assumption|]. constructor; [|constructor]. auto.
  - split; [assumption|]. split; [assumption|]. split; [|assumption].
    apply Forall_app. split; [assumption|]. constructor; [|constructor].
    split; [exact F|]. destruct T as [T|[T|T]]; auto. contradiction.
Qed.

Lemma bucket_rules_fold pools : forall st st',
  foldM process_pool pools st = Ok st' -> bucket_rules st -> bucket_rules st'.
Proof.
  induction pools as [|raw pools IH]; intros st st'; simpl.
  - intros [= <-]. auto.
  - destruct (process_pool st raw) as [st1|] eqn:P; simpl; [|discriminate].
    intros F B. apply (IH _ _ F).
    destruct (process_pool_spec _ _ _ P) as [->|(r & apy & tvl & -> & _ & ->)];
      [exact B|apply bucket_rules_assign, B].
Qed.

(** X4: in a returned result, every entry of [focus] is of a focus protocol
    and Low, every entry of [long_term] is Low and of no focus protocol, every
    entry of [short_term] is Medium or High and of no focus protocol, and
    every entry of [layer2] is on a layer-2 chain; so no entry is in two of
    [focus], [long_term] and [short_term]. *)
Theorem classify_bucket_rules (mode : string) (fetch : string -> response) :
  match classify_yield_opportunities mode fetch with
  | Ok b =>
      bucket_rules b /\
      forall e,
        ~ (e ∈ long_term b /\ e ∈ short_term b) /\
        ~ (e ∈ focus b /\ e ∈ long_term b) /\
        ~ (e ∈ focus b /\ e ∈ short_term b)
  | Raise _ => True
  end.
Proof.
  destruct (classify_yield_opportunities mode fetch) as [b|] eqn:C; [|exact I].
  assert (B : bucket_rules b).
  { destruct (classify_spec _ _ _ C) as [->|(st & F & ->)].
    - repeat split; constructor.
    - assert (B0 : bucket_rules empty_buckets) by (repeat split; constructor).
      destruct (bucket_rules_fold _ _ _ F B0) as (Hf & Hl & Hs & H2).
      repeat split; simpl; apply Forall_top10; assumption. }
  split; [exact B|]. destruct B as (Hf & Hl & Hs & _).
  rewrite Forall_forall in Hf, Hl, Hs.
  intros e. repeat split; intros [H1 H2].
  - apply Hl in H1. apply Hs in H2.
    destruct H1 as [_ R1], H2 as [_ [R2|R2]]; congruence.
  - apply Hf in H1. apply Hl in H2. tauto.
  - apply Hf in H1. apply Hs in H2. tauto.
Qed.

Lemma descending_take {A} (key : A -> float) n l :
  descending key l -> descending key (take n l).
Proof.
  unfold descending. intros H. rewrite <- (take_drop n l) in H.
  apply StronglySorted_app in H. tauto.
Qed.

Lemma fold_entries pools : forall st st',
  foldM process_pool pools st = Ok st' ->
  forall P : YieldEntry.t -> Prop,
    (forall e, entry_from pools e -> P e) ->
    (forall e, in_some_bucket st e -> P e) ->
    forall e, in_some_bucket st' e -> P e.
Proof.
  intros st st' F P H1 H2 e He.
  destruct (foldM_process_pool _ _ _ F e He); auto.
Qed.

(** X5: when no entry of the feed has a NaN sort key, each returned bucket
    is in descending order of the sort key. *)
Theorem classify_buckets_sorted (mode : string) (fetch : string -> response)
    (b : buckets) :
  (forall e, entry_from (pools_of fetch) e -> not_nan (sort_key mode e)) ->
  classify_yield_opportunities mode fetch = Ok b ->
  sorted_buckets mode b.
Proof.
  intros K C. destruct (classify_spec _ _ _ C) as [->|(st & F & ->)].
  - repeat split; constructor.
  - assert (Kst : forall e, in_some_bucket st e -> not_nan (sort_key mode e)).
    { apply (fold_entries _ _ _ F); [exact K|].
      intros e [H|[H|[H|H]]]; inversion H. }
    assert (S : forall l, (forall e, e ∈ l -> in_some_bucket st e) ->
                descending (sort_key mode) (top10 mode l)).
    { intros l Hl. unfold top10. apply descending_take.
      apply sorted_reverse_stable. unfold keys_ok. rewrite Forall_forall.
      intros e He. apply Kst, Hl, He. }
    unfold sorted_buckets, in_some_bucket in *. simpl.
    repeat split; apply S; auto.
Qed.

Lemma classify_buckets_sorted_witness :
  sorted_buckets "tvl"
    (mk_buckets [sushi_entry; curve_entry; uniswap_entry] [] []
       [sushi_entry; uniswap_entry]).
Proof.
  apply (classify_buckets_sorted "tvl" (feed_of three_pools)).
  - intros e (r & apy & tvl & Hin & Hr & ->).
    destruct Hr as (_ & _ & Fa & Ft & _).
    change (pools_of (feed_of three_pools)) with three_pools in Hin.
    unfold three_pools, uniswap_pool, curve_pool, sushi_pool in Hin.
    repeat (apply elem_of_cons in Hin as [Hin|Hin];
            [injection Hin as E; subst r;
             vm_compute in Fa, Ft; injection Fa as <-; injection Ft as <-;
             vm_compute; reflexivity|]).
    inversion Hin.
  - vm_compute. reflexivity.
Defined.
(** ** Errors and skipped records *)

Lemma py_float_fits v :
  is_number v = true -> fits v = true -> exists f, py_float v = Ok f.
Proof.
  destruct v as [|b|z|f|s|l|d]; simpl; try discriminate; eauto.
  intros _ H. unfold float_of_int.
  destruct (is_inf_sf (binary_normalize prec emax z 0 false)); [discriminate|eauto].
Qed.

Lemma process_pool_total st raw :
  numbers_fit raw = true -> exists st', process_pool st raw = Ok st'.
Proof.
  destruct raw as [| | | | | |r]; simpl; eauto.
  intros [Fa Ft]%andb_true_iff.
  destruct (is_number (dict_get r "apy" PNone)) eqn:Na; simpl; [|eauto].
  destruct (is_number (dict_get r "tvlUsd" (PInt 0))) eqn:Nt; simpl; [|eauto].
  destruct (py_float_fits _ Na Fa) as [apy ->].
  destruct (py_float_fits _ Nt Ft) as [tvl ->]. simpl.
  destruct (PrimFloat.ltb apy MIN_APY || PrimFloat.ltb tvl MIN_TVL); eauto.
Qed.

Lemma foldM_process_pool_total pools : forall st,
  forallb numbers_fit pools = true -> exists st', foldM process_pool pools st = Ok st'.
Proof.
  induction pools as [|raw pools IH]; intros st; simpl; [eauto|].
  intros [H1 H2]%andb_true_iff.
  destruct (process_pool_total st raw H1) as [st1 ->]. simpl. apply IH, H2.
Qed.

(** X6: on a body that is a JSON object whose apy and tvlUsd integers are
    within the binary64 range, the classifier returns a result. *)
Theorem classify_returns_on_objects (mode : string) (fetch : string -> response)
    (d : list (string * pyval)) :
  fetch YIELDS_URL = Body (PDict d) ->
  forallb numbers_fit (pools_of fetch) = true ->
  exists b, classify_yield_opportunities mode fetch = Ok b.
Proof.
  intros E. unfold classify_yield_opportunities, pools_of, safe_request.
  fold YIELDS_URL. rewrite E. simpl.
  destruct (bool_decide_reflect (is_Some (assoc_get d "error"))) as [[v Hv]|_]; simpl.
  - rewrite Hv. simpl. eauto.
  - intros H.
    destruct (foldM_process_pool_total
                (match dict_get d "data" (PList []) with PList l => l | _ => [] end)
                empty_buckets H) as [st ->].
    simpl. eauto.
Qed.

Lemma classify_returns_on_objects_witness :
  exists b, classify_yield_opportunities SORT_MODE (feed_of [beefy_pool]) = Ok b.
Proof.
  apply (classify_returns_on_objects SORT_MODE (feed_of [beefy_pool])
           [("data", PList [beefy_pool])]); reflexivity.
Defined.

(** X7: a body with an ["error"] key gives four empty buckets whatever else
    it holds, and so does a body whose ["data"] is missing, not a list, or
    an empty list. *)
Theorem classify_empty_bodies (mode : string) (fetch : string -> response)
    (d : list (string * pyval)) :
  fetch YIELDS_URL = Body (PDict d) ->
  is_Some (assoc_get d "error") \/
  assoc_get d "data" = None \/
  is_list (dict_get d "data" (PList [])) = false \/
  dict_get d "data" (PList []) = PList [] ->
  classify_yield_opportunities mode fetch = Ok empty_buckets.
Proof.
  intros E H. unfold classify_yield_opportunities, safe_request.
  fold YIELDS_URL. rewrite E. simpl.
  destruct (bool_decide_reflect (is_Some (assoc_get d "error"))) as [[v Hv]|N]; simpl.
  - rewrite Hv. reflexivity.
  - assert (P : match dict_get d "data" (PList []) with PList l => l | _ => [] end = []).
    { destruct H as [H|[H|[H|H]]].
      - contradiction.
      - unfold dict_get. rewrite H. reflexivity.
      - destruct (dict_get d "data" (PList [])); try reflexivity. discriminate.
      - rewrite H. reflexivity. }
    rewrite P. reflexivity.
Qed.

Lemma classify_empty_bodies_witness :
  classify_yield_opportunities SORT_MODE
    (fun _ => Body (PDict [("error", PStr "rate limited"); ("data", PList [beefy_pool])]))
  = Ok empty_buckets.
Proof.
  apply (classify_empty_bodies SORT_MODE _
           [("error", PStr "rate limited"); ("data", PList [beefy_pool])]).
  - reflexivity.
  - left. eexists. reflexivity.
Defined.

(** X8: a record is skipped, the lists unchanged, when it is not an object
    or when its apy or its tvlUsd is not an [int] or a [float] (a missing apy,
    a numeric string); a record without tvlUsd is never retained. *)
Theorem skipped_records (st : buckets) (raw : pyval) (r : list (string * pyval)) :
  (is_dict raw = false -> process_pool st raw = Ok st) /\
  (is_number (dict_get r "apy" PNone) = false \/
   is_number (dict_get r "tvlUsd" (PInt 0)) = false ->
   process_pool st (PDict r) = Ok st) /\
  (assoc_get r "apy" = None -> process_pool st (PDict r) = Ok st) /\
  (assoc_get r "tvlUsd" = None ->
   forall st', process_pool st (PDict r) = Ok st' -> st' = st).
Proof.
  split; [|split; [|split]].
  - destruct raw; simpl; try reflexivity. discriminate.
  - intros [H|H]; unfold process_pool; rewrite H; simpl; [reflexivity|].
    rewrite orb_true_r. reflexivity.
  - intros H. unfold process_pool, dict_get. rewrite H. reflexivity.
  - intros H st' P.
    destruct (process_pool_spec _ _ _ P) as [->|(r' & apy & tvl & [= <-] & R & _)];
      [reflexivity|].
    destruct R as (_ & _ & _ & Ft & _ & Lt). unfold dict_get in Ft. rewrite H in Ft.
    vm_compute in Ft. injection Ft as <-. vm_compute in Lt. discriminate.
Qed.

(** ** The opportunity type *)

Lemma type_map_domain : dom OPPORTUNITY_TYPE_MAP = FOCUS_PROTOCOLS.
Proof. compute_done. Qed.

Lemma type_map_values k v : OPPORTUNITY_TYPE_MAP !! k = Some v -> v <> "Unknown".
Proof.
  assert (H : map_Forall (fun _ v => v <> "Unknown") OPPORTUNITY_TYPE_MAP)
    by compute_done.
  apply H.
Qed.

(** X9: the type of an entry is "Unknown" exactly when its project is no
    focus protocol: the type table and the focus set have the same keys. *)
Theorem type_unknown_iff_not_focus (r : list (string * pyval)) (apy tvl : float) :
  YieldEntry.type (make_entry r apy tvl) = "Unknown" <->
  lower (YieldEntry.project (make_entry r apy tvl)) ∉ FOCUS_PROTOCOLS.
Proof.
  change (YieldEntry.type (make_entry r apy tvl))
    with (default "Unknown" (OPPORTUNITY_TYPE_MAP !! lower (str_field r "project" ""))).
  change (YieldEntry.project (make_entry r apy tvl)) with (str_field r "project" "").
  rewrite <- type_map_domain, not_elem_of_dom.
  destruct (OPPORTUNITY_TYPE_MAP !! lower (str_field r "project" "")) as [v|] eqn:L; simpl.
  - split; [|discriminate]. intros ->. destruct (type_map_values _ _ L eq_refl).
  - tauto.
Qed.
(** ** The meme scanner: failed terms, the chain of the entries, the cut *)

Lemma foldM_ext {A S} (f g : S -> A -> result S) l :
  (forall s x, x ∈ l -> f s x = g s x) -> forall s, foldM f l s = foldM g l s.
Proof.
  induction l as [|x l IH]; intros H s; simpl; [reflexivity|].
  rewrite (H s x) by apply list_elem_of_here.
  destruct (g s x); simpl; [|reflexivity].
  apply IH. intros s' y Hy. apply H. apply list_elem_of_further, Hy.
Qed.

Lemma scan_query_failure fetch st q :
  is_failure (fetch (search_url q)) = true -> scan_query fetch st q = Ok st.
Proof.
  unfold scan_query, safe_request.
  destruct (fetch (search_url q)); simpl; try discriminate; reflexivity.
Qed.

Lemma scan_query_no_pairs fetch st q :
  fetch (search_url q) = Body (PDict [("pairs", PList [])]) ->
  scan_query fetch st q = Ok st.
Proof.
  unfold scan_query, safe_request. intros ->. destruct st as [res [ch|]]; reflexivity.
Qed.

(** X10: a search term whose request fails contributes what a term with no
    pair contributes, and the other terms are scanned as before; when all five
    requests fail the result is the empty list. *)
Theorem failed_terms_are_skipped (fetch : string -> response) :
  get_meme_coins (failures_as_empty fetch) = get_meme_coins fetch /\
  ((forall q, q ∈ queries -> is_failure (fetch (search_url q)) = true) ->
   get_meme_coins fetch = Ok []).
Proof.
  split.
  - unfold get_meme_coins. f_equal. apply foldM_ext. intros st q _.
    destruct (is_failure (fetch (search_url q))) eqn:F.
    + rewrite (scan_query_failure fetch st q F).
      apply scan_query_no_pairs. unfold failures_as_empty. rewrite F. reflexivity.
    + unfold scan_query, safe_request, failures_as_empty. rewrite F. reflexivity.
  - intros H. unfold get_meme_coins.
    assert (E : forall qs st, (forall q, q ∈ qs -> q ∈ queries) ->
                foldM (scan_query fetch) qs st = Ok st).
    { induction qs as [|q qs IH]; intros st Hq; simpl; [reflexivity|].
      rewrite scan_query_failure by (apply H, Hq, list_elem_of_here). simpl.
      apply IH. intros q' Hq'. apply Hq, list_elem_of_further, Hq'. }
    rewrite E by auto. reflexivity.
Qed.

Lemma scan_pair_chain st d st' :
  scan_pair st (PDict d) = Ok st' ->
  exists chain,
    resolve_chain (dict_get d "chainId" (PInt 0)) = Ok chain /\ st'.2 = Some chain.
Proof.
  unfold scan_pair.
  destruct (resolve_chain (dict_get d "chainId" (PInt 0))) as [chain|]; simpl;
    [|discriminate].
  intros H. exists chain. split; [reflexivity|]. cbv beta iota in H.
  destruct (negb (bool_decide (chain ∈ MEME_CHAINS)));
    [injection H as <-; reflexivity|].
  destruct (nested_float d "liquidity" "usd"); simpl in H; [|discriminate].
  destruct (nested_float d "volume" "h24"); simpl in H; [|discriminate].
  destruct (nested_float d "priceChange" "h24"); simpl in H; [|discriminate].
  match type of H with
  | context [if ?b then _ else _] => destruct b
  end; injection H as <-; reflexivity.
Qed.

Lemma foldM_scan_pair_last ps d : forall st cands ch',
  foldM scan_pair (ps ++ [PDict d]) st = Ok (cands, ch') ->
  exists chain,
    resolve_chain (dict_get d "chainId" (PInt 0)) = Ok chain /\ ch' = Some chain.
Proof.
  induction ps as [|p ps IH]; intros st cands ch'; simpl app; cbn [foldM].
  - destruct (scan_pair st (PDict d)) as [st1|] eqn:P; [|discriminate].
    intros [= ->]. apply (scan_pair_chain _ _ _ P).
  - destruct (scan_pair st p) as [st1|]; [|discriminate]. apply IH.
Qed.

(** X11: every entry appended for a search term carries, as its chain, the
    chain resolved from the last pair record of that term's response,
    retained or not. *)
Theorem meme_chain_of_last_pair (fetch : string -> response) (q : string)
    (body : list (string * pyval)) (ps : list pyval) (d : list (string * pyval))
    (res res' : list MemeEntry.t) (ch ch' : option string) :
  fetch (search_url q) = Body (PDict body) ->
  assoc_get body "error" = None ->
  dict_get body "pairs" (PList []) = PList (ps ++ [PDict d]) ->
  scan_query fetch (res, ch) q = Ok (res', ch') ->
  exists chain c,
    resolve_chain (dict_get d "chainId" (PInt 0)) = Ok chain /\
    ch' = Some chain /\
    res' = res ++ c /\
    forall e, e ∈ c -> MemeEntry.chain e = chain.
Proof.
  intros E Herr Hp. unfold scan_query, safe_request. rewrite E. simpl.
  rewrite Herr. simpl. rewrite Hp.
  destruct (foldM scan_pair (ps ++ [PDict d]) ([], ch)) as [[cands chain]|] eqn:F;
    simpl; [|discriminate].
  destruct (foldM_scan_pair_last _ _ _ _ _ F) as (c0 & R & ->).
  rewrite append_entries_some. simpl. intros [= <- <-].
  exists c0, (map (meme_entry c0) (top3 cands)). repeat split; auto.
  intros e He. apply list_elem_of_fmap in He as (c & -> & _).
  destruct c as [[[obj liq] vol] chg]. reflexivity.
Qed.

Lemma meme_chain_of_last_pair_witness :
  exists chain c,
    resolve_chain (dict_get (pair_fields (PInt 999999) "OTHER" 1 1) "chainId" (PInt 0))
    = Ok chain /\
    Some "999999" = Some chain /\
    [MemeEntry.mk "PEPE" "999999" "0.01" "$400,000" "$50,000" "1.50%" "Medium"] = [] ++ c /\
    forall e, e ∈ c -> MemeEntry.chain e = chain.
Proof.
  apply (meme_chain_of_last_pair stale_chain_feed "pepe"
           [("pairs", PList [ pair_record (PInt 8453) "PEPE" 400000 50000;
                              pair_record (PInt 999999) "OTHER" 1 1 ])]
           [pair_record (PInt 8453) "PEPE" 400000 50000]
           (pair_fields (PInt 999999) "OTHER" 1 1) [] _ None (Some "999999"));
    reflexivity.
Defined.
Lemma foldM_scan_pair_passes ps : forall st st',
  foldM scan_pair ps st = Ok st' ->
  forall c, c ∈ st'.1 ->
    c ∈ st.1 \/ exists d chain, PDict d ∈ ps /\ passes d chain c.
Proof.
  induction ps as [|p ps IH]; intros st st'; cbn [foldM].
  - intros [= <-] c Hc. auto.
  - destruct (scan_pair st p) as [st1|] eqn:P; [|discriminate].
    intros F c Hc. destruct (IH _ _ F c Hc) as [H|(d & chain & Hd & Hp)].
    + destruct st as [c0 ch0]. destruct p as [| | | | | |d];
        try (injection P as <-; auto).
      destruct (scan_pair_cases _ _ _ _ P) as [(chain & -> & _)|(chain & c' & -> & Hp)];
        [auto|].
      simpl in H. apply elem_of_app in H as [H|H]; [auto|].
      apply list_elem_of_singleton in H as ->.
      right. exists d, chain. split; [apply list_elem_of_here|exact Hp].
    + right. exists d, chain. split; [apply list_elem_of_further, Hd|exact Hp].
Qed.

Lemma contribution_passes fetch q c e :
  contribution fetch q c -> e ∈ c ->
  exists d chain cand ch,
    PDict d ∈ pairs_of fetch q /\ passes d chain cand /\ e = meme_entry ch cand.
Proof.
  intros (cands & s & ch & (ch0 & ch1 & F) & (Hperm & _) & ->) He.
  apply list_elem_of_fmap in He as (cand & -> & Hc).
  assert (Hin : cand ∈ cands).
  { rewrite <- Hperm. apply elem_of_take in Hc as (i & Hi & _).
    eapply list_elem_of_lookup_2, Hi. }
  destruct (foldM_scan_pair_passes _ _ _ F cand Hin) as [H|(d & chain & Hd & Hp)];
    [inversion H|].
  exists d, chain, cand, ch. auto.
Qed.

Lemma get_meme_coins_inv fetch results :
  get_meme_coins fetch = Ok results ->
  exists contribs,
    Forall2 (contribution fetch) queries contribs /\
    results = take 12 (concat contribs).
Proof.
  unfold get_meme_coins.
  destruct (foldM (scan_query fetch) queries ([], None)) as [st|] eqn:F; simpl; [|discriminate].
  intros [= <-]. destruct (foldM_scan_query _ _ _ _ F) as (cs & Hcs & E).
  exists cs. split; [exact Hcs|]. rewrite E. reflexivity.
Qed.

(** X12: every entry of the meme list comes from a pair record of one of
    the five responses that passed the filters: tracked chain, liquidity at
    least 100,000 and 24h volume at least 0.1 * liquidity. *)
Theorem meme_entries_pass_filters (fetch : string -> response)
    (results : list MemeEntry.t) :
  get_meme_coins fetch = Ok results ->
  forall e, e ∈ results ->
    exists q d chain cand ch,
      q ∈ queries /\ PDict d ∈ pairs_of fetch q /\
      passes d chain cand /\ e = meme_entry ch cand.
Proof.
  intros G e He.
  destruct (get_meme_coins_inv _ _ G) as (contribs & F2 & ->).
  apply elem_of_take in He as (i & Hi & _).
  apply list_elem_of_lookup_2 in Hi.
  apply list_elem_of_In, in_concat in Hi as (c & Hc & Hec).
  apply list_elem_of_In in Hc, Hec.
  apply list_elem_of_lookup in Hc as [j Hj].
  destruct (Forall2_lookup_r _ _ _ _ _ F2 Hj) as (q & Hq & Hcontrib).
  destruct (contribution_passes _ _ _ _ Hcontrib Hec) as (d & chain & cand & ch & H1 & H2 & H3).
  exists q, d, chain, cand, ch. split; [eapply list_elem_of_lookup_2, Hq|auto].
Qed.

Lemma meme_entries_pass_filters_witness :
  Forall
    (fun e =>
       exists q d chain cand ch,
         q ∈ queries /\ PDict d ∈ pairs_of two_term_feed q /\
         passes d chain cand /\ e = meme_entry ch cand)
    two_term_result.
Proof.
  apply Forall_forall.
  apply (meme_entries_pass_filters two_term_feed two_term_result).
  vm_compute. reflexivity.
Defined.

Lemma contribution_length fetch q c : contribution fetch q c -> (length c <= 3)%nat.
Proof.
  intros (cands & s & ch & _ & _ & ->). rewrite length_map. apply firstn_le_length.
Qed.

(** X13: each term contributes at most three entries, so the entries of the
    first four terms are all in the result, in term order, and the cut to 12
    only ever drops entries of the last term. *)
Theorem first_four_terms_kept (fetch : string -> response)
    (results : list MemeEntry.t) :
  get_meme_coins fetch = Ok results ->
  exists c1 c2 c3 c4 c5,
    contribution fetch "pepe" c1 /\ contribution fetch "doge" c2 /\
    contribution fetch "shiba" c3 /\ contribution fetch "floki" c4 /\
    contribution fetch "bonk" c5 /\
    results
    = c1 ++ c2 ++ c3 ++ c4 ++ take (12 - length (c1 ++ c2 ++ c3 ++ c4)) c5.
Proof.
  intros G. destruct (get_meme_coins_inv _ _ G) as (contribs & F2 & ->).
  unfold queries in F2.
  repeat match goal with
         | H : Forall2 _ (_ :: _) _ |- _ => inversion H; subst; clear H
         | H : Forall2 _ [] _ |- _ => inversion H; subst; clear H
         end.
  match goal with
  | |- context [concat [?a; ?b; ?c; ?d; ?e]] => exists a, b, c, d, e
  end.
  repeat (split; [assumption|]).
  repeat match goal with
         | H : contribution _ _ _ |- _ => apply contribution_length in H
         end.
  simpl concat. rewrite app_nil_r.
  rewrite !(app_assoc _ _ (_ ++ take _ _)), !app_assoc.
  rewrite <- !app_assoc. rewrite !(app_assoc).
  rewrite take_app_ge by (rewrite !length_app; lia).
  rewrite <- !app_assoc. reflexivity.
Qed.

Lemma first_four_terms_kept_witness :
  exists c1 c2 c3 c4 c5,
    contribution two_term_feed "pepe" c1 /\ contribution two_term_feed "doge" c2 /\
    contribution two_term_feed "shiba" c3 /\ contribution two_term_feed "floki" c4 /\
    contribution two_term_feed "bonk" c5 /\
    two_term_result
    = c1 ++ c2 ++ c3 ++ c4 ++ take (12 - length (c1 ++ c2 ++ c3 ++ c4)) c5.
Proof.
  apply (first_four_terms_kept two_term_feed two_term_result).
  vm_compute. reflexivity.
Defined.
(** ** Top picks *)

Section SortedAgain.
Context {A : Type} (key : A -> float).

Lemma insert_sorted_last x l :
  Forall (fun y => PrimFloat.leb (key y) (key x) = true) l ->
  insert_sorted key x l = l ++ [x].
Proof.
  induction l as [|y l IH]; simpl; [reflexivity|].
  intros [Hy Hl]%Forall_cons. rewrite (leb_true_ltb_false _ _ Hy), (IH Hl). reflexivity.
Qed.

Lemma fold_insert_ascending l : forall acc,
  ascending key (acc ++ l) ->
  fold_left (fun acc x => insert_sorted key x acc) l acc = acc ++ l.
Proof.
  induction l as [|x l IH]; intros acc H; simpl; [rewrite app_nil_r; reflexivity|].
  rewrite insert_sorted_last.
  - rewrite IH; rewrite <- app_assoc; [reflexivity|exact H].
  - unfold ascending in H. apply StronglySorted_app in H as (H & _ & _).
    rewrite Forall_forall. intros y Hy. apply (H y x Hy), list_elem_of_here.
Qed.

Lemma descending_rev l : descending key l -> ascending key (rev l).
Proof.
  unfold ascending, descending. induction l as [|x l IH]; simpl; intros Hs.
  - constructor.
  - apply StronglySorted_cons in Hs as [Hxl Hs].
    apply StronglySorted_app. split; [|split].
    + intros a b Ha Hb. apply list_elem_of_singleton in Hb as ->.
      rewrite Forall_forall in Hxl. apply Hxl.
      apply list_elem_of_In, in_rev, list_elem_of_In. exact Ha.
    + auto.
    + apply StronglySorted_cons. split; constructor.
Qed.

(** A list in descending order is left as it is. *)
Lemma sorted_reverse_descending l : descending key l -> sorted_reverse key l = l.
Proof.
  intros H. unfold sorted_reverse, sort_ascending.
  rewrite (fold_insert_ascending (rev l) []) by (apply descending_rev, H).
  simpl. apply rev_involutive.
Qed.
End SortedAgain.

(** X14: taking the top picks of the top picks changes nothing (for scores
    that are not NaN). *)
Theorem top_picks_idempotent (l : list YieldEntry.t) :
  keys_ok YieldEntry.ror l ->
  get_top_picks (get_top_picks l) = get_top_picks l.
Proof.
  intros K. unfold get_top_picks.
  rewrite sorted_reverse_descending.
  - apply take_idemp.
  - apply descending_take. apply (sorted_reverse_stable _ _ K).
Qed.

Lemma top_picks_idempotent_witness :
  get_top_picks (get_top_picks [pick_a; pick_b; pick_c])
  = get_top_picks [pick_a; pick_b; pick_c].
Proof.
  apply top_picks_idempotent. repeat constructor.
Defined.

(** X15: the first top pick has the highest score of the input (for scores
    that are not NaN). *)
Theorem top_pick_is_maximum (l : list YieldEntry.t) (x : YieldEntry.t)
    (rest : list YieldEntry.t) :
  keys_ok YieldEntry.ror l ->
  get_top_picks l = x :: rest ->
  forall e, e ∈ l -> PrimFloat.leb (YieldEntry.ror e) (YieldEntry.ror x) = true.
Proof.
  intros K G e He. unfold get_top_picks in G.
  destruct (sorted_reverse_stable YieldEntry.ror l K) as (Hperm & Hdesc & _).
  destruct (sorted_reverse YieldEntry.ror l) as [|y s] eqn:S; [discriminate|].
  injection G as -> _.
  rewrite <- Hperm in He. apply elem_of_cons in He as [->|He].
  - apply leb_refl. unfold keys_ok in K. rewrite <- Hperm in K.
    apply Forall_cons in K as [K _]. exact K.
  - unfold descending in Hdesc. apply StronglySorted_cons in Hdesc as [H _].
    rewrite Forall_forall in H. apply H, He.
Qed.

Lemma top_pick_is_maximum_witness :
  Forall (fun e => PrimFloat.leb (YieldEntry.ror e) (YieldEntry.ror pick_b) = true)
    [pick_a; pick_b; pick_c].
Proof.
  apply Forall_forall.
  apply (top_pick_is_maximum [pick_a; pick_b; pick_c] pick_b [pick_a; pick_c]).
  - repeat constructor.
  - vm_compute. reflexivity.
Defined.

(** X16: the top picks are min(5, n) entries of the n given, each one of
    the input, whatever the scores. *)
Theorem top_picks_size (l : list YieldEntry.t) :
  length (get_top_picks l) = Nat.min 5 (length l) /\
  (forall e, e ∈ get_top_picks l -> e ∈ l) /\
  ((length l <= 5)%nat -> get_top_picks l ≡ₚ l).
Proof.
  unfold get_top_picks. split; [|split].
  - rewrite length_take, sorted_reverse_length. reflexivity.
  - intros e. apply elem_of_take_sorted.
  - intros H. rewrite take_ge by (rewrite sorted_reverse_length; exact H).
    apply sorted_reverse_perm.
Qed.

(** * The wallet simulation *)

Lemma wallet_key_eqb_eq a b : wallet_key_eqb a b = true <-> a = b.
Proof. destruct a, b; simpl; split; congruence. Qed.

Lemma wallet_key_eqb_refl a : wallet_key_eqb a a = true.
Proof. apply wallet_key_eqb_eq. reflexivity. Qed.

Lemma session_eta s : mk_session (wallets s) (positions s) = s.
Proof. destruct s. reflexivity. Qed.

Lemma get_connected_wallet_ext s s' :
  (forall k, MockWallet.connected (wallets s' k) = MockWallet.connected (wallets s k)) ->
  get_connected_wallet s' = get_connected_wallet s.
Proof.
  intros H. unfold get_connected_wallet, get_all_wallets. simpl. rewrite !H. reflexivity.
Qed.

Lemma get_connected_wallet_set_balance s ps k b :
  get_connected_wallet
    (set_wallet (mk_session (wallets s) ps) k (MockWallet.set_balance (wallets s k) b))
  = get_connected_wallet s.
Proof.
  apply get_connected_wallet_ext. intros k'. simpl.
  destruct (wallet_key_eqb k' k) eqn:E; [|reflexivity].
  apply wallet_key_eqb_eq in E. subst. reflexivity.
Qed.

Lemma get_connected_wallet_connected s k :
  get_connected_wallet s = Some k -> MockWallet.connected (wallets s k) = true.
Proof.
  unfold get_connected_wallet. intros H. apply find_some in H. apply H.
Qed.

(** ** The loop of [close_position] *)

Lemma close_loop_absent pid w ps : absent pid ps -> close_loop ps pid w = (ps, None).
Proof.
  induction 1 as [|p ps Hp _ IH]; simpl; [reflexivity|].
  apply String.eqb_neq in Hp. rewrite Hp, IH. reflexivity.
Qed.

Lemma close_loop_found pid w ps1 p ps2 :
  absent pid ps1 -> Position.id p = pid ->
  MockWallet.wallet_type w = Position.wallet_type p ->
  close_loop (ps1 ++ p :: ps2) pid (Some w)
  = (ps1 ++ Position.close p :: ps2, Some (Position.close p)).
Proof.
  intros A I T. induction A as [|q ps1 Hq _ IH]; simpl.
  - apply String.eqb_eq in I. rewrite I.
    apply String.eqb_eq in T. rewrite T. reflexivity.
  - apply String.eqb_neq in Hq. rewrite Hq, IH. reflexivity.
Qed.

Lemma close_loop_no_owner pid w ps :
  (forall wl, w = Some wl ->
     Forall (fun p => Position.id p = pid ->
                      MockWallet.wallet_type wl <> Position.wallet_type p) ps) ->
  close_loop ps pid w = (close_all pid ps, None).
Proof.
  induction ps as [|p ps IH]; intros H; simpl; [reflexivity|].
  rewrite IH by (intros wl E; specialize (H wl E); inversion H; assumption).
  destruct (String.eqb (Position.id p) pid) eqn:E; [|reflexivity].
  destruct w as [wl|]; [|reflexivity].
  specialize (H wl eq_refl). inversion H as [|? ? Hp _]; subst.
  apply String.eqb_eq in E. apply Hp in E. apply String.eqb_neq in E.
  simpl. rewrite E. reflexivity.
Qed.

Lemma close_loop_same_or_closed pid w ps :
  Forall2 (same_or_closed pid) ps (close_loop ps pid w).1.
Proof.
  induction ps as [|p ps IH]; simpl; [constructor|].
  destruct (close_loop ps pid w) as [ps' r] eqn:L. simpl in IH.
  assert (R : Forall2 (same_or_closed pid) ps ps).
  { clear. induction ps; constructor; [left; reflexivity|assumption]. }
  destruct (String.eqb (Position.id p) pid) eqn:E.
  - apply String.eqb_eq in E.
    destruct w as [wl|]; [destruct (String.eqb _ _)|]; simpl;
      constructor; try assumption; right; auto.
  - simpl. constructor; [left; reflexivity|assumption].
Qed.

Lemma close_position_found s n pid k ps1 p ps2 :
  get_connected_wallet s = Some k ->
  positions s = ps1 ++ p :: ps2 ->
  absent pid ps1 -> Position.id p = pid ->
  MockWallet.wallet_type (wallets s k) = Position.wallet_type p ->
  close_position s n pid
  = (Returned (tx_hash_of n) (Position.current_value p),
     set_wallet (mk_session (wallets s) (ps1 ++ Position.close p :: ps2)) k
       (MockWallet.set_balance (wallets s k)
          (PrimFloat.add (MockWallet.balance (wallets s k)) (Position.current_value p)))).
Proof.
  intros C P A I T. unfold close_position. rewrite C, P. simpl fmap.
  rewrite (close_loop_found _ _ _ _ _ A I T). reflexivity.
Qed.

(** ** Closing a position *)

(** X17: closing an id that no position has fails and leaves the session as
    it was. *)
Theorem close_position_unknown_id (s : session) (n : N) (position_id : string) :
  absent position_id (positions s) ->
  close_position s n position_id
  = (Failure "Position not found or wallet mismatch", s).
Proof.
  intros A. unfold close_position. rewrite (close_loop_absent _ _ _ A).
  rewrite session_eta. destruct (get_connected_wallet s); reflexivity.
Qed.

Lemma close_position_unknown_id_witness :
  close_position entered_session 7 "pos_0_1000"
  = (Failure "Position not found or wallet mismatch", entered_session).
Proof.
  apply (close_position_unknown_id entered_session 7 "pos_0_1000").
  change (positions entered_session) with [entered_position].
  constructor; [|constructor].
  intros H. vm_compute in H. discriminate.
Defined.

(** X18: when no position of the id belongs to the connected wallet (or no
    wallet is connected), the call fails and credits nothing, but every
    position of that id is marked closed all the same. *)
Theorem close_position_wrong_wallet (s : session) (n : N) (position_id : string) :
  (forall k, get_connected_wallet s = Some k ->
     Forall (fun p => Position.id p = position_id ->
                      MockWallet.wallet_type (wallets s k) <> Position.wallet_type p)
            (positions s)) ->
  close_position s n position_id
  = (Failure "Position not found or wallet mismatch",
     mk_session (wallets s) (close_all position_id (positions s))).
Proof.
  intros H. unfold close_position. rewrite close_loop_no_owner.
  - destruct (get_connected_wallet s); reflexivity.
  - intros wl E. destruct (get_connected_wallet s) as [k|]; [|discriminate].
    injection E as <-. apply H. reflexivity.
Qed.

Lemma close_position_wrong_wallet_witness :
  close_position foreign_session 7 "pos_1700000000_1234"
  = (Failure "Position not found or wallet mismatch",
     mk_session (wallets foreign_session) [Position.close foreign_position]).
Proof.
  apply (close_position_wrong_wallet foreign_session 7 "pos_1700000000_1234").
  intros k E. vm_compute in E. injection E as <-.
  constructor; [|constructor]. intros _. vm_compute. discriminate.
Defined.

(** X19: [close_position] does not look at the status: closing the same
    position a second time succeeds again and credits its value a second
    time. *)
Theorem close_position_twice (s : session) (n1 n2 : N) (position_id : string)
    (k : wallet_key) (ps1 ps2 : list Position.t) (p : Position.t) :
  get_connected_wallet s = Some k ->
  positions s = ps1 ++ p :: ps2 ->
  absent position_id ps1 -> Position.id p = position_id ->
  MockWallet.wallet_type (wallets s k) = Position.wallet_type p ->
  exists s1 s2,
    close_position s n1 position_id
    = (Returned (tx_hash_of n1) (Position.current_value p), s1) /\
    close_position s1 n2 position_id
    = (Returned (tx_hash_of n2) (Position.current_value p), s2) /\
    MockWallet.balance (wallets s2 k)
    = PrimFloat.add
        (PrimFloat.add (MockWallet.balance (wallets s k)) (Position.current_value p))
        (Position.current_value p) /\
    positions s2 = ps1 ++ Position.close p :: ps2.
Proof.
  intros C P A I T.
  eexists. eexists. split; [apply (close_position_found s n1 _ k ps1 p ps2); assumption|].
  split.
  - rewrite (close_position_found _ n2 position_id k ps1 (Position.close p) ps2).
    + reflexivity.
    + rewrite get_connected_wallet_set_balance. exact C.
    + reflexivity.
    + exact A.
    + exact I.
    + simpl. rewrite wallet_key_eqb_refl. exact T.
  - simpl. rewrite !wallet_key_eqb_refl. split; reflexivity.
Qed.

Lemma close_position_twice_witness :
  exists s1 s2,
    close_position entered_session 7 (position_id_of first_draws)
    = (Returned (tx_hash_of 7) (Position.current_value entered_position), s1) /\
    close_position s1 8 (position_id_of first_draws)
    = (Returned (tx_hash_of 8) (Position.current_value entered_position), s2) /\
    MockWallet.balance (wallets s2 phantom_wallet)
    = PrimFloat.add
        (PrimFloat.add (MockWallet.balance (wallets entered_session phantom_wallet))
           (Position.current_value entered_position))
        (Position.current_value entered_position) /\
    positions s2 = [] ++ Position.close entered_position :: [].
Proof.
  apply (close_position_twice entered_session 7 8 (position_id_of first_draws)
           phantom_wallet [] [] entered_position).
  - vm_compute. reflexivity.
  - vm_compute. reflexivity.
  - constructor.
  - reflexivity.
  - vm_compute. reflexivity.
Defined.

(** X20: [close_position] never adds, removes or reorders positions, and
    changes nothing of a position but the status of those with the given
    id. *)
Theorem close_position_only_status (s : session) (n : N) (position_id : string) :
  Forall2 (same_or_closed position_id) (positions s)
    (positions (close_position s n position_id).2).
Proof.
  unfold close_position.
  pose proof (close_loop_same_or_closed position_id
                (wallets s <$> get_connected_wallet s) (positions s)) as H.
  destruct (close_loop _ _ _) as [ps r]. simpl in H.
  destruct r as [pos|]; [destruct (get_connected_wallet s)|]; exact H.
Qed.

(** ** Entering a position *)

Lemma simulate_transaction_accepted s d amount name k chain apy :
  MockWallet.connected (wallets s k) = true ->
  PrimFloat.ltb (MockWallet.balance (wallets s k)) amount = false ->
  simulate_transaction s d amount name k chain apy
  = (Entered (tx_hash_of (drawn_hash d)) (position_id_of d),
     set_wallet
       (mk_session (wallets s)
          (positions s ++
           [Position.mk (position_id_of d) name chain amount amount apy (now d)
              "active" (MockWallet.wallet_type (wallets s k))]))
       k
       (MockWallet.set_balance (wallets s k)
          (PrimFloat.sub (MockWallet.balance (wallets s k)) amount))).
Proof.
  intros C B. unfold simulate_transaction. rewrite C, B. reflexivity.
Qed.

(** X21: entering a position from the connected wallet and closing it at
    once returns the amount: the position stays in the list, marked closed,
    and the balance is (balance - amount) + amount in float arithmetic; the
    other wallets are untouched.  The new id must not be that of an earlier
    position. *)
Theorem enter_then_close (s : session) (d : tx_draws) (n : N) (amount apy : float)
    (name chain : string) (k : wallet_key) :
  get_connected_wallet s = Some k ->
  PrimFloat.ltb (MockWallet.balance (wallets s k)) amount = false ->
  absent (position_id_of d) (positions s) ->
  exists s1 s2 p,
    simulate_transaction s d amount name k chain apy
    = (Entered (tx_hash_of (drawn_hash d)) (position_id_of d), s1) /\
    close_position s1 n (position_id_of d) = (Returned (tx_hash_of n) amount, s2) /\
    positions s2 = positions s ++ [p] /\
    Position.status p = "closed" /\ Position.amount_invested p = amount /\
    MockWallet.balance (wallets s2 k)
    = PrimFloat.add (PrimFloat.sub (MockWallet.balance (wallets s k)) amount) amount /\
    forall k', k' <> k -> wallets s2 k' = wallets s k'.
Proof.
  intros C B A.
  pose proof (get_connected_wallet_connected _ _ C) as Hc.
  rewrite (simulate_transaction_accepted _ _ _ _ _ _ _ Hc B).
  eexists. eexists. eexists. split; [reflexivity|].
  split.
  - rewrite (close_position_found _ n (position_id_of d) k (positions s)
               (Position.mk (position_id_of d) name chain amount amount apy (now d)
                  "active" (MockWallet.wallet_type (wallets s k))) []).
    + reflexivity.
    + rewrite get_connected_wallet_set_balance. exact C.
    + reflexivity.
    + exact A.
    + reflexivity.
    + simpl. rewrite wallet_key_eqb_refl. reflexivity.
  - simpl. rewrite !wallet_key_eqb_refl. repeat split.
    intros k' Hk. destruct (wallet_key_eqb k' k) eqn:E; [|reflexivity].
    apply wallet_key_eqb_eq in E. contradiction.
Qed.

Lemma enter_then_close_witness :
  exists s1 s2 p,
    simulate_transaction phantom_session first_draws 100 "raydium" phantom_wallet
      "solana" 12.5
    = (Entered (tx_hash_of (drawn_hash first_draws)) (position_id_of first_draws), s1) /\
    close_position s1 7 (position_id_of first_draws) = (Returned (tx_hash_of 7) 100, s2) /\
    positions s2 = positions phantom_session ++ [p] /\
    Position.status p = "closed" /\ Position.amount_invested p = 100%float /\
    MockWallet.balance (wallets s2 phantom_wallet)
    = PrimFloat.add
        (PrimFloat.sub (MockWallet.balance (wallets phantom_session phantom_wallet)) 100)
        100 /\
    forall k', k' <> phantom_wallet -> wallets s2 k' = wallets phantom_session k'.
Proof.
  apply (enter_then_close phantom_session first_draws 7 100 12.5 "raydium" "solana"
           phantom_wallet).
  - vm_compute. reflexivity.
  - vm_compute. reflexivity.
  - constructor.
Defined.

(** X22: [simulate_transaction] sets no lower bound on the amount: from a
    connected wallet with a balance of at least zero, a negative amount is
    accepted, a position of that negative amount is recorded and the amount
    is subtracted from the balance. *)
Theorem negative_amount_accepted (s : session) (d : tx_draws) (amount apy : float)
    (name chain : string) (k : wallet_key) :
  MockWallet.connected (wallets s k) = true ->
  PrimFloat.leb 0 (MockWallet.balance (wallets s k)) = true ->
  PrimFloat.ltb amount 0 = true ->
  exists s1 p,
    simulate_transaction s d amount name k chain apy
    = (Entered (tx_hash_of (drawn_hash d)) (position_id_of d), s1) /\
    positions s1 = positions s ++ [p] /\
    Position.status p = "active" /\ Position.amount_invested p = amount /\
    Position.current_value p = amount /\
    MockWallet.balance (wallets s1 k)
    = PrimFloat.sub (MockWallet.balance (wallets s k)) amount.
Proof.
  intros C B N.
  assert (L : PrimFloat.ltb (MockWallet.balance (wallets s k)) amount = false).
  { destruct (PrimFloat.ltb (MockWallet.balance (wallets s k)) amount) eqn:E; [|reflexivity].
    pose proof (leb_ltb_trans _ _ _ B E) as H.
    rewrite (ltb_asym _ _ N) in H. discriminate. }
  rewrite (simulate_transaction_accepted _ _ _ _ _ _ _ C L).
  eexists. eexists. split; [reflexivity|]. simpl.
  rewrite wallet_key_eqb_refl. repeat split.
Qed.

Lemma negative_amount_accepted_witness :
  exists s1 p,
    simulate_transaction phantom_session first_draws (-50) "raydium" phantom_wallet
      "solana" 12.5
    = (Entered (tx_hash_of (drawn_hash first_draws)) (position_id_of first_draws), s1) /\
    positions s1 = positions phantom_session ++ [p] /\
    Position.status p = "active" /\ Position.amount_invested p = (-50)%float /\
    Position.current_value p = (-50)%float /\
    MockWallet.balance (wallets s1 phantom_wallet)
    = PrimFloat.sub (MockWallet.balance (wallets phantom_session phantom_wallet)) (-50).
Proof.
  apply (negative_amount_accepted phantom_session first_draws (-50) 12.5 "raydium"
           "solana" phantom_wallet).
  - vm_compute. reflexivity.
  - vm_compute. reflexivity.
  - vm_compute. reflexivity.
Defined.
